(** * S&P500-trading.py: the signal pipeline and the order logic

    A shallow embedding of [calculate_indicators], [filter_stocks],
    [evaluate_trading_signals], [place_order] and [monitor_and_trade].

    Numbers.  The script computes on pandas columns of IEEE doubles.  The
    embedding keeps the three special values the code reacts to (NaN and
    the two infinities, as produced by numpy's division by zero) and
    computes on the finite values exactly, over the rationals: rounding and
    the sign of zero are not represented.

    Tables.  A [DataFrame] is a list of labelled columns.  A label is either
    a plain string or a two-level tuple, because yfinance returns
    (Price, Ticker) columns and line 107 of the script rewrites the labels
    in place.

    Effects.  Every [print], every order handed to the broker and the pause
    between symbols is an [event] of the trace a function returns; an
    exception is a value of [result]; the object a parameter [data] refers
    to is passed in and handed back. *)

From Stdlib Require Import QArith Qreduction Lqa Lia.
From Stdlib Require Import List Bool Arith String Ascii.
Import ListNotations.

Local Open Scope string_scope.
Local Open Scope Q_scope.

(** ** Floating-point values *)

Inductive fval : Type :=
| Fin (q : Q)
| PInf
| NInf
| NaN.

Definition Series := list fval.

Module Float.

Definition fin (q : Q) : fval := Fin (Qred q).

Definition Qltb (x y : Q) : bool := negb (Qle_bool y x).
Definition Qeqb (x y : Q) : bool := Qeq_bool x y.

(** [pd.isna] on a scalar: only NaN is missing, an infinity is not. *)
Definition isna (x : fval) : bool :=
  match x with NaN => true | _ => false end.

Definition neg (x : fval) : fval :=
  match x with
  | Fin q => fin (- q)
  | PInf => NInf
  | NInf => PInf
  | NaN => NaN
  end.

Definition add (x y : fval) : fval :=
  match x, y with
  | NaN, _ | _, NaN => NaN
  | Fin a, Fin b => fin (a + b)
  | PInf, NInf | NInf, PInf => NaN
  | PInf, _ | _, PInf => PInf
  | NInf, _ | _, NInf => NInf
  end.

Definition sub (x y : fval) : fval := add x (neg y).

(** sign of a finite value: [Gt] positive, [Lt] negative, [Eq] zero *)
Definition sgn (q : Q) : comparison := Qcompare q 0.

Definition inf_of (c : comparison) : fval :=
  match c with Gt => PInf | Lt => NInf | Eq => NaN end.

Definition flip (c : comparison) : comparison := CompOpp c.

Definition mul (x y : fval) : fval :=
  match x, y with
  | NaN, _ | _, NaN => NaN
  | Fin a, Fin b => fin (a * b)
  | Fin a, PInf | PInf, Fin a => inf_of (sgn a)
  | Fin a, NInf | NInf, Fin a => inf_of (flip (sgn a))
  | PInf, PInf | NInf, NInf => PInf
  | PInf, NInf | NInf, PInf => NInf
  end.

(** numpy's true division on doubles: [x / 0] is an infinity of the sign
    of [x], [0 / 0] is NaN, nothing is raised. *)
Definition div (x y : fval) : fval :=
  match x, y with
  | NaN, _ | _, NaN => NaN
  | Fin a, Fin b =>
      if Qeqb b 0 then inf_of (sgn a) else fin (a / b)
  | Fin _, PInf | Fin _, NInf => Fin 0
  | PInf, Fin b => match sgn b with Lt => NInf | _ => PInf end
  | NInf, Fin b => match sgn b with Lt => PInf | _ => NInf end
  | PInf, PInf | PInf, NInf | NInf, PInf | NInf, NInf => NaN
  end.

(** [x > y]; every comparison with NaN is false *)
Definition gt (x y : fval) : bool :=
  match x, y with
  | NaN, _ | _, NaN => false
  | Fin a, Fin b => Qltb b a
  | PInf, PInf => false
  | PInf, _ => true
  | _, PInf => false
  | NInf, _ => false
  | Fin _, NInf => true
  end.

Definition lt (x y : fval) : bool := gt y x.

(** [x != y] on doubles *)
Definition ne (x y : fval) : bool :=
  match x, y with
  | Fin a, Fin b => negb (Qeqb a b)
  | PInf, PInf | NInf, NInf => false
  | _, _ => true
  end.

End Float.

Declare Scope fval_scope.
Delimit Scope fval_scope with F.
Bind Scope fval_scope with fval.
Infix "+" := Float.add : fval_scope.
Infix "-" := Float.sub : fval_scope.
Infix "*" := Float.mul : fval_scope.
Infix "/" := Float.div : fval_scope.
Notation "- x" := (Float.neg x) : fval_scope.
Infix ">?" := Float.gt (at level 70, no associativity) : fval_scope.
Infix "<?" := Float.lt (at level 70, no associativity) : fval_scope.

Local Open Scope nat_scope.
Local Open Scope list_scope.

(** ** pandas column operations *)

(** [zip_with f a b]: an element-wise binary operation on two columns of
    one frame (they share the index, hence the length). *)
Fixpoint zip_with (f : fval -> fval -> fval) (a b : Series) : Series :=
  match a, b with
  | x :: a', y :: b' => f x y :: zip_with f a' b'
  | _, _ => []
  end.

(** [s.shift(1)] *)
Definition shift1 (s : Series) : Series :=
  match s with
  | [] => []
  | _ :: _ => NaN :: removelast s
  end.

(** [s.diff(1)] *)
Definition diff (s : Series) : Series :=
  zip_with Float.sub s (shift1 s).

(** [s.where(cond, other)] with [cond] computed element by element *)
Definition where_ (cond : fval -> bool) (other : fval) (s : Series) : Series :=
  map (fun x => if cond x then x else other) s.

(** [s.fillna(v)] *)
Definition fillna (v : fval) (s : Series) : Series :=
  map (fun x => if Float.isna x then v else x) s.

(** [s.fillna(method="ffill")]: [last] is the most recent valid value *)
Fixpoint ffill_from (last : fval) (s : Series) : Series :=
  match s with
  | [] => []
  | x :: s' =>
      let v := if Float.isna x then last else x in
      v :: ffill_from v s'
  end.

Definition ffill (s : Series) : Series := ffill_from NaN s.

(** [s.pct_change()]: missing values are padded first (the default
    [fill_method] of the pandas versions that accept
    [fillna(method=...)]), then [s / s.shift(1) - 1]. *)
Definition pct_change (s : Series) : Series :=
  let padded := ffill s in
  zip_with (fun x y => (x / y - Fin 1)%F) padded (shift1 padded).

(** The rows [i-w+1 .. i] of a column (fewer at the start). *)
Definition window (w i : nat) (s : Series) : Series :=
  skipn (S i - w) (firstn (S i) s).

(** Observations of a window: rolling aggregations read an infinity as
    missing, like NaN. *)
Fixpoint observations (win : Series) : list Q :=
  match win with
  | [] => []
  | Fin q :: win' => q :: observations win'
  | _ :: win' => observations win'
  end.

Definition Qsum (l : list Q) : Q := fold_right Qplus 0%Q l.

Definition Qnat (n : nat) : Q := inject_Z (Z.of_nat n).

(** One value of [rolling(window=w).mean()]; [min_periods] is [w]. *)
Definition mean_of (w : nat) (win : Series) : fval :=
  let obs := observations win in
  let n := List.length obs in
  if (w <=? n) && (0 <? n) then Float.fin (Qsum obs / Qnat n) else NaN.

Definition rolling_mean (w : nat) (s : Series) : Series :=
  map (fun i => mean_of w (window w i s)) (seq 0 (List.length s)).

(** [ewm(span=n, adjust=False).mean()]: the running state is the weighted
    mean so far and the weight of the past ([old_wt]); a missing value
    keeps the mean and lets the past decay once more. *)
Definition ewm_step (alpha : Q) (st : fval * Q) (cur : fval) : fval * Q :=
  let '(weighted, old_wt) := st in
  if Float.isna weighted then
    if Float.isna cur then (weighted, old_wt) else (cur, old_wt)
  else
    let old_wt' := (old_wt * (1 - alpha))%Q in
    if Float.isna cur then (weighted, old_wt')
    else
      (if Float.ne weighted cur
       then ((Fin old_wt' * weighted + Fin alpha * cur) / Fin (old_wt' + alpha))%F
       else weighted,
       1%Q).

Fixpoint ewm_scan (alpha : Q) (st : fval * Q) (s : Series) : Series :=
  match s with
  | [] => []
  | cur :: s' =>
      let st' := ewm_step alpha st cur in
      fst st' :: ewm_scan alpha st' s'
  end.

Definition ewm_mean (span : nat) (s : Series) : Series :=
  let alpha := (2 / (Qnat span + 1))%Q in
  match s with
  | [] => []
  | x :: s' => x :: ewm_scan alpha (x, 1%Q) s'
  end.

(** ** Labelled tables *)

(** A column label: a plain string, or a (Price, Ticker) tuple of a
    two-level column index. *)
Inductive label : Type :=
| Name (s : string)
| Tuple (s t : string).

Record DataFrame : Type := mkDataFrame {
  cols : list (label * Series);
  nrows : nat
}.

Definition level0 (l : label) : string :=
  match l with Name s => s | Tuple s _ => s end.

Definition is_tuple (l : label) : bool :=
  match l with Tuple _ _ => true | Name _ => false end.

Definition columns (df : DataFrame) : list label := map fst (cols df).

(** [len(data)] and [data.empty] *)
Definition len (df : DataFrame) : nat := nrows df.

Definition empty (df : DataFrame) : bool :=
  (nrows df =? 0) || (List.length (cols df) =? 0).

(** [key in data.columns] *)
Definition in_columns (key : string) (df : DataFrame) : bool :=
  existsb (fun l => String.eqb (level0 l) key) (columns df).

Definition matching (key : string) (df : DataFrame) : list (label * Series) :=
  filter (fun c => String.eqb (level0 (fst c)) key) (cols df).

Inductive exn : Type :=
| KeyError
| IndexError
| ValueError
| UnboundLocalError
| ExternalError (what : string).

Inductive result (A : Type) : Type :=
| Ok (a : A)
| Raise (e : exn).
Arguments Ok {A} a.
Arguments Raise {A} e.

(** What [data[key]] evaluates to. *)
Inductive item : Type :=
| IsSeries (s : Series)
| IsFrame (sub : list Series).

Definition getitem (key : string) (df : DataFrame) : result item :=
  match matching key df with
  | [] => Raise KeyError
  | [(Name _, s)] => Ok (IsSeries s)
  | [(Tuple _ t, s)] =>
      if String.eqb t "" then Ok (IsSeries s) else Ok (IsFrame [s])
  | sub => Ok (IsFrame (map snd sub))
  end.

(** The values of a column expression that is a Series or a one-column
    sub-frame; a wider sub-frame cannot be assigned to a single key. *)
Definition column_of (it : item) : result Series :=
  match it with
  | IsSeries s => Ok s
  | IsFrame [s] => Ok s
  | IsFrame _ => Raise ValueError
  end.

(** [data[key] = s]: overwrite the columns filed under [key], or append a
    new one (labelled [(key, "")] when the index has two levels). *)
Definition setitem (key : string) (s : Series) (df : DataFrame) : DataFrame :=
  if in_columns key df then
    mkDataFrame
      (map (fun c => if String.eqb (level0 (fst c)) key then (fst c, s) else c)
           (cols df))
      (nrows df)
  else
    let l := if existsb is_tuple (columns df) then Tuple key "" else Name key in
    mkDataFrame (cols df ++ [(l, s)]) (nrows df).

(** A scalar read out of a table, or something that is not a scalar. *)
Inductive cell : Type :=
| Scalar (v : fval)
| NonScalar.

(** [x.iloc[-1]] of a column *)
Definition last_value (s : Series) : result fval :=
  match s with
  | [] => Raise IndexError
  | _ :: _ => Ok (last s NaN)
  end.

(** [data[key].iloc[-1]] *)
Definition iloc_last_of (key : string) (df : DataFrame) : result cell :=
  match getitem key df with
  | Raise e => Raise e
  | Ok (IsSeries s) =>
      match last_value s with
      | Ok v => Ok (Scalar v)
      | Raise e => Raise e
      end
  | Ok (IsFrame _) =>
      if nrows df =? 0 then Raise IndexError else Ok NonScalar
  end.

(** [col[0]] for a column label: the first level of a tuple, the first
    character of a string. *)
Definition first_of (l : label) : result string :=
  match l with
  | Tuple s _ => Ok s
  | Name EmptyString => Raise IndexError
  | Name (String c _) => Ok (String c EmptyString)
  end.

Fixpoint first_of_all (ls : list label) : result (list string) :=
  match ls with
  | [] => Ok []
  | l :: ls' =>
      match first_of l with
      | Raise e => Raise e
      | Ok s =>
          match first_of_all ls' with
          | Raise e => Raise e
          | Ok ss => Ok (s :: ss)
          end
      end
  end.

(** [data.columns = names] *)
Definition set_columns (names : list string) (df : DataFrame) : DataFrame :=
  mkDataFrame (combine (map Name names) (map snd (cols df))) (nrows df).

(** Row [i] of the columns filed under one of [subset]. *)
Definition row_defined (subset : list string) (df : DataFrame) (i : nat) : bool :=
  forallb
    (fun c =>
       if existsb (String.eqb (level0 (fst c))) subset
       then negb (Float.isna (nth i (snd c) NaN))
       else true)
    (cols df).

Definition kept_rows (subset : list string) (df : DataFrame) : list nat :=
  filter (row_defined subset df) (seq 0 (nrows df)).

(** [data.dropna(subset=subset)]: a new table *)
Definition dropna (subset : list string) (df : DataFrame) : DataFrame :=
  let keep := kept_rows subset df in
  mkDataFrame
    (map (fun c => (fst c, map (fun i => nth i (snd c) NaN) keep)) (cols df))
    (List.length keep).

(** [data.iloc[-1]]: the last row, one labelled value per column *)
Definition iloc_last (df : DataFrame) : result (list (label * fval)) :=
  if nrows df =? 0 then Raise IndexError
  else Ok (map (fun c => (fst c, nth (nrows df - 1) (snd c) NaN)) (cols df)).

(** [latest[key]] *)
Definition row_get (key : string) (row : list (label * fval)) : result cell :=
  match filter (fun c => String.eqb (level0 (fst c)) key) row with
  | [] => Raise KeyError
  | [(_, v)] => Ok (Scalar v)
  | _ => Ok NonScalar
  end.

(** ** Traces, exceptions, the outside world *)

(** [MarketOrder(action, totalQuantity)] *)
Record Order : Type := MarketOrder {
  action : string;
  totalQuantity : Q
}.

(** One entry of [ib.positions()] *)
Record Position : Type := mkPosition {
  contract_symbol : string;
  position : Q
}.

(** One weekly bar as downloaded. *)
Record Bar : Type := mkBar {
  bar_open : fval;
  bar_high : fval;
  bar_low : fval;
  bar_close : fval;
  bar_volume : fval
}.

(** What [yf.download] hands back for one symbol: the bars, and whether the
    columns come as (Price, Ticker) tuples or as plain names. *)
Record Download : Type := mkDownload {
  multi_level_index : bool;
  bars : list Bar
}.

(** The lines the script prints, one constructor per [print]. *)
Inductive msg : Type :=
| Insufficient_data (symbol : string)
| Not_enough_data_for_MACD (symbol : string)
| Not_enough_data_for_RSI (symbol : string)
| Missing_required_columns_in (symbol : string)
| Error_calculating_indicators (symbol : string) (e : exn)
| Skipping_invalid_volume_volatility (avg_volume volatility : cell)
| Error_in_filter_stocks (e : exn)
| Columns_in_data (names : list label)
| Missing_required_columns (missing : list string)
| Insufficient_data_after_dropping_NaN
| Error_in_evaluate_trading_signals (e : exn)
| Already_holding (symbol : string)
| Not_holding (symbol : string)
| Order_placed (action symbol status : string)
| Error_placing_order (action symbol : string) (e : exn)
| Monitoring
| Processing (symbol : string)
| Skipping_symbol (symbol : string)
| Does_not_meet_criteria (symbol : string)
| Signal_is (symbol signal : string)
| Bullish_signal (symbol : string)
| Bearish_signal (symbol : string).

Inductive event : Type :=
| Printed (m : msg)
| PlaceOrder (symbol : string) (order : Order)
| Sleep (seconds : nat).

(** A computation: the trace it leaves and the value or exception it ends
    with. *)
Definition M (A : Type) : Type := (list event * result A)%type.

Definition ret {A} (a : A) : M A := ([], Ok a).

Definition bind {A B} (c : M A) (k : A -> M B) : M B :=
  match c with
  | (t, Raise e) => (t, Raise e)
  | (t, Ok a) => let '(t', r) := k a in (t ++ t', r)
  end.

Definition lift {A} (r : result A) : M A := ([], r).
Definition raise {A} (e : exn) : M A := ([], Raise e).
Definition emit (ev : event) : M unit := ([ev], Ok tt).
Definition print (m : msg) : M unit := emit (Printed m).

(** [try: body except Exception as e: handler(e)] *)
Definition try_except {A} (body : M A) (handler : exn -> M A) : M A :=
  match body with
  | (t, Ok a) => (t, Ok a)
  | (t, Raise e) => let '(t', r) := handler e in (t ++ t', r)
  end.

Notation "x <- c ;; k" := (bind c (fun x => k))
  (at level 61, c at next level, right associativity).
Notation "c ;; k" := (bind c (fun _ => k))
  (at level 61, right associativity).

(** [a and b] on conditions that may raise: [b] runs only if [a] holds *)
Definition and_then (a b : M bool) : M bool :=
  x <- a ;; if x then b else ret false.

Definition trace {A} (c : M A) : list event := fst c.
Definition outcome {A} (c : M A) : result A := snd c.

(** The orders a trace hands to the broker. *)
Fixpoint orders_of (t : list event) : list (string * Order) :=
  match t with
  | [] => []
  | PlaceOrder s o :: t' => (s, o) :: orders_of t'
  | _ :: t' => orders_of t'
  end.

(** The signals a trace reports. *)
Fixpoint signals_of (t : list event) : list (string * string) :=
  match t with
  | [] => []
  | Printed (Signal_is s sig) :: t' => (s, sig) :: signals_of t'
  | _ :: t' => signals_of t'
  end.

(** The table [yf.download] builds from the bars. *)
Definition frame_of_download (stock_symbol : string) (dl : Download) : DataFrame :=
  let lab s := if multi_level_index dl then Tuple s stock_symbol else Name s in
  mkDataFrame
    [ (lab "Close", map bar_close (bars dl));
      (lab "High", map bar_high (bars dl));
      (lab "Low", map bar_low (bars dl));
      (lab "Open", map bar_open (bars dl));
      (lab "Volume", map bar_volume (bars dl)) ]
    (List.length (bars dl)).

(** [data[key]] as one column of values *)
Definition column (key : string) (df : DataFrame) : M Series :=
  it <- lift (getitem key df) ;; lift (column_of it).

(** A column assigned [None]: every row missing. *)
Definition none_column (df : DataFrame) : Series := repeat NaN (nrows df).

(** ** RSI, lines 46-52 *)

Definition price_delta (close : Series) : Series := diff close.

Definition gain_of (delta : Series) : Series :=
  where_ (fun x => (x >? Fin 0)%F) (Fin 0) delta.

Definition loss_of (delta : Series) : Series :=
  map Float.neg (where_ (fun x => (x <? Fin 0)%F) (Fin 0) delta).

Definition avg_gain_of (close : Series) : Series :=
  rolling_mean 14 (gain_of (price_delta close)).

Definition avg_loss_of (close : Series) : Series :=
  rolling_mean 14 (loss_of (price_delta close)).

Definition rsi_value (avg_gain avg_loss : fval) : fval :=
  let rs := (avg_gain / avg_loss)%F in
  (Fin 100 - (Fin 100 / (Fin 1 + rs)))%F.

Definition rsi_of (close : Series) : Series :=
  zip_with rsi_value (avg_gain_of close) (avg_loss_of close).

Definition required_columns : list string :=
  ["Close"; "SMA"; "MACD"; "Signal"; "RSI"].

Section Script.

(** The rounded square root behind [rolling(...).std()]; nothing below
    depends on which rational it returns. *)
Variable sqrt : Q -> Q.

(** The collaborators: the price download, the membership list and the
    broker session [ib]. *)
Variable yf_download : string -> result Download.
Variable get_sp500_stocks : result (list string).
Variable ib_positions : result (list Position).
Variable ib_placeOrder : string -> Order -> result string.

(** One value of [rolling(window=w).std()] (sample deviation, ddof 1). *)
Definition std_of (w : nat) (win : Series) : fval :=
  let obs := observations win in
  let n := List.length obs in
  if (w <=? n) && (1 <? n) then
    let mean := (Qsum obs / Qnat n)%Q in
    let ssq := Qsum (map (fun x => ((x - mean) * (x - mean))%Q) obs) in
    Float.fin (sqrt (ssq / Qnat (n - 1))%Q)
  else NaN.

Definition rolling_std (w : nat) (s : Series) : Series :=
  map (fun i => std_of w (window w i s)) (seq 0 (List.length s)).

(** *** calculate_indicators, lines 21-81 *)

Definition calculate_indicators (stock_symbol : string) : M (option DataFrame) :=
  try_except
    (dl <- lift (yf_download stock_symbol) ;;
     let data := frame_of_download stock_symbol dl in
     if empty data || (len data <? 26) then
       print (Insufficient_data stock_symbol) ;;
       ret None
     else
       let sma_window := Nat.min 20 (len data) in
       close <- column "Close" data ;;
       let data := setitem "SMA" (rolling_mean sma_window close) data in
       data <-
         (if 26 <=? len data then
            close <- column "Close" data ;;
            let data := setitem "EMA12" (ewm_mean 12 close) data in
            close <- column "Close" data ;;
            let data := setitem "EMA26" (ewm_mean 26 close) data in
            ema12 <- column "EMA12" data ;;
            ema26 <- column "EMA26" data ;;
            let data := setitem "MACD" (zip_with Float.sub ema12 ema26) data in
            macd <- column "MACD" data ;;
            ret (setitem "Signal" (ewm_mean 9 macd) data)
          else
            print (Not_enough_data_for_MACD stock_symbol) ;;
            ret (setitem "Signal" (none_column data)
                   (setitem "MACD" (none_column data) data))) ;;
       data <-
         (if 14 <=? len data then
            close <- column "Close" data ;;
            ret (setitem "RSI" (rsi_of close) data)
          else
            print (Not_enough_data_for_RSI stock_symbol) ;;
            ret (setitem "RSI" (none_column data) data)) ;;
       close <- column "Close" data ;;
       let data := setitem "Volatility" (rolling_std 10 (pct_change close)) data in
       volume <- column "Volume" data ;;
       let data := setitem "AvgVolume" (rolling_mean 10 volume) data in
       sma <- column "SMA" data ;;
       let data := setitem "SMA" (ffill sma) data in
       macd <- column "MACD" data ;;
       let data := setitem "MACD" (fillna (Fin 0) macd) data in
       signal <- column "Signal" data ;;
       let data := setitem "Signal" (fillna (Fin 0) signal) data in
       rsi <- column "RSI" data ;;
       let data := setitem "RSI" (fillna (Fin 50) rsi) data in
       volatility <- column "Volatility" data ;;
       let data := setitem "Volatility" (fillna (Fin 0) volatility) data in
       avg_volume <- column "AvgVolume" data ;;
       let data := setitem "AvgVolume" (fillna (Fin 0) avg_volume) data in
       if existsb (fun col => negb (in_columns col data)) required_columns then
         print (Missing_required_columns_in stock_symbol) ;;
         ret None
       else ret (Some data))
    (fun e =>
       print (Error_calculating_indicators stock_symbol e) ;;
       ret None).

(** *** filter_stocks, lines 85-101 *)

(** [pd.isna(x)] used as a condition: a table value has no truth value *)
Definition truth_isna (x : cell) : M bool :=
  match x with
  | Scalar v => ret (Float.isna v)
  | NonScalar => raise ValueError
  end.

(** [x > bound] used as a condition *)
Definition truth_gt (x : cell) (bound : fval) : M bool :=
  match x with
  | Scalar v => ret (v >? bound)%F
  | NonScalar => raise ValueError
  end.

Definition truth_lt (x : cell) (bound : fval) : M bool :=
  match x with
  | Scalar v => ret (v <? bound)%F
  | NonScalar => raise ValueError
  end.

(** The table is only read: it is handed back as it came. *)
Definition filter_stocks (data : DataFrame) (min_volume min_volatility : Q)
  : M bool * DataFrame :=
  (try_except
     (avg_volume <- lift (iloc_last_of "AvgVolume" data) ;;
      volatility <- lift (iloc_last_of "Volatility" data) ;;
      invalid <-
        (a <- truth_isna avg_volume ;;
         if a then ret true else truth_isna volatility) ;;
      if invalid then
        print (Skipping_invalid_volume_volatility avg_volume volatility) ;;
        ret false
      else
        and_then (truth_gt avg_volume (Fin min_volume))
                 (truth_gt volatility (Fin min_volatility)))
     (fun e =>
        print (Error_in_filter_stocks e) ;;
        ret false),
   data).

(** *** evaluate_trading_signals, lines 104-148 *)

(** [latest[a] > latest[b]] and [latest[a] < latest[b]] as conditions *)
Definition row_gt (latest : list (label * fval)) (a b : string) : M bool :=
  x <- lift (row_get a latest) ;;
  y <- lift (row_get b latest) ;;
  match x, y with
  | Scalar u, Scalar v => ret (u >? v)%F
  | _, _ => raise ValueError
  end.

Definition row_lt (latest : list (label * fval)) (a b : string) : M bool :=
  x <- lift (row_get a latest) ;;
  y <- lift (row_get b latest) ;;
  match x, y with
  | Scalar u, Scalar v => ret (u <? v)%F
  | _, _ => raise ValueError
  end.

Definition row_gt_const (latest : list (label * fval)) (a : string) (c : fval)
  : M bool :=
  x <- lift (row_get a latest) ;; truth_gt x c.

Definition row_lt_const (latest : list (label * fval)) (a : string) (c : fval)
  : M bool :=
  x <- lift (row_get a latest) ;; truth_lt x c.

(** Lines 126-145, on the last row of the cleaned table. *)
Definition decide_latest (latest : list (label * fval)) : M string :=
  buy <- and_then (row_gt latest "Close" "SMA")
           (and_then (row_gt latest "MACD" "Signal")
                     (row_gt_const latest "RSI" (Fin 50))) ;;
  if buy then ret "BUY"
  else
    sell <- and_then (row_lt latest "Close" "SMA")
              (and_then (row_lt latest "MACD" "Signal")
                        (row_lt_const latest "RSI" (Fin 50))) ;;
    if sell then ret "SELL" else ret "HOLD".

(** The first statement relabels the caller's table in place; the table
    handed back is the relabelled one. *)
Definition evaluate_trading_signals (data : DataFrame) : M string * DataFrame :=
  let handler e := print (Error_in_evaluate_trading_signals e) ;; ret "HOLD" in
  match first_of_all (columns data) with
  | Raise e => (handler e, data)
  | Ok names =>
      let data := set_columns names data in
      (try_except
         (print (Columns_in_data (columns data)) ;;
          if negb (forallb (fun col => in_columns col data) required_columns) then
            print (Missing_required_columns
                     (filter (fun col => negb (in_columns col data))
                             required_columns)) ;;
            ret "HOLD"
          else
            let cleaned := dropna required_columns data in
            if empty cleaned then
              print Insufficient_data_after_dropping_NaN ;;
              ret "HOLD"
            else
              latest <- lift (iloc_last cleaned) ;;
              decide_latest latest)
         handler,
       data)
  end.

(** *** place_order, lines 152-176 *)

(** [sum(pos.position for pos in positions if pos.contract.symbol == s)] *)
Definition current_position_of (positions : list Position) (stock_symbol : string)
  : Q :=
  fold_left Qplus
    (map position
       (filter (fun pos => String.eqb (contract_symbol pos) stock_symbol)
               positions))
    0%Q.

(** How the [if]/[elif] of lines 160-169 is left. *)
Inductive branch : Type :=
| Returned
| Bound (order : Order)
| Unbound.

Definition place_order (stock_symbol action : string) : M unit :=
  try_except
    (positions <- lift ib_positions ;;
     let current_position := current_position_of positions stock_symbol in
     b <-
       (if String.eqb action "BUY" then
          if Float.Qltb 0 current_position then
            print (Already_holding stock_symbol) ;;
            ret Returned
          else ret (Bound (MarketOrder "BUY" 10))
        else if String.eqb action "SELL" then
          if Qle_bool current_position 0 then
            print (Not_holding stock_symbol) ;;
            ret Returned
          else ret (Bound (MarketOrder "SELL" current_position))
        else ret Unbound) ;;
     match b with
     | Returned => ret tt
     | Unbound => raise UnboundLocalError
     | Bound order =>
         emit (PlaceOrder stock_symbol order) ;;
         status <- lift (ib_placeOrder stock_symbol order) ;;
         print (Order_placed action stock_symbol status)
     end)
    (fun e => print (Error_placing_order action stock_symbol e)).

(** *** monitor_and_trade, lines 189-222 *)

(** The local variables that live across the iterations of the loop. *)
Record Locals : Type := mkLocals {
  data_var : option DataFrame;
  signal_var : option string
}.

Definition no_locals : Locals := mkLocals None None.

Definition loop_body (stock_symbol : string) (locals : Locals) : M Locals :=
  print (Processing stock_symbol) ;;
  data <- calculate_indicators stock_symbol ;;
  let locals := mkLocals data (signal_var locals) in
  match data with
  | None =>
      print (Skipping_symbol stock_symbol) ;; ret locals
  | Some df =>
      if len df <? 10 then
        print (Skipping_symbol stock_symbol) ;; ret locals
      else
        let '(passed, df) := filter_stocks df 1000000 (2 # 100) in
        let locals := mkLocals (Some df) (signal_var locals) in
        passed <- passed ;;
        if negb passed then
          print (Does_not_meet_criteria stock_symbol) ;; ret locals
        else
          let '(signal, df) := evaluate_trading_signals df in
          signal <- signal ;;
          let locals := mkLocals (Some df) (Some signal) in
          print (Signal_is stock_symbol signal) ;;
          (if String.eqb signal "BUY" then
             print (Bullish_signal stock_symbol) ;;
             place_order stock_symbol "BUY"
           else if String.eqb signal "SELL" then
             print (Bearish_signal stock_symbol) ;;
             place_order stock_symbol "SELL"
           else ret tt) ;;
          emit (Sleep 2) ;;
          ret locals
  end.

Fixpoint for_each (symbols : list string) (locals : Locals) : M Locals :=
  match symbols with
  | [] => ret locals
  | stock_symbol :: rest =>
      locals <- loop_body stock_symbol locals ;;
      for_each rest locals
  end.

Definition monitor_and_trade : M unit :=
  sp500_stocks <- lift get_sp500_stocks ;;
  print Monitoring ;;
  for_each sp500_stocks no_locals ;;
  ret tt.

End Script.

(** * Vocabulary of the specification *)

(** The orders [place_order] hands to the broker for one action, given the
    account's positions. *)
Definition placed (ib_placeOrder : string -> Order -> result string)
  (positions : list Position) (stock_symbol action : string)
  : list (string * Order) :=
  orders_of (trace (place_order (Ok positions) ib_placeOrder stock_symbol action)).

(** The five fields the signal rule reads. *)
Record FeatureRow : Type := mkFeatureRow {
  close : fval;
  sma : fval;
  macd : fval;
  macd_signal : fval;
  rsi : fval
}.

(** The one column filed under [key]. *)
Definition field (key : string) (df : DataFrame) : Series :=
  match matching key df with
  | [(_, s)] => s
  | _ => []
  end.

Definition feature_row (df : DataFrame) (i : nat) : FeatureRow :=
  mkFeatureRow
    (nth i (field "Close" df) NaN)
    (nth i (field "SMA" df) NaN)
    (nth i (field "MACD" df) NaN)
    (nth i (field "Signal" df) NaN)
    (nth i (field "RSI" df) NaN).

Definition feature_rows (df : DataFrame) : list FeatureRow :=
  map (feature_row df) (seq 0 (nrows df)).

Definition all_defined (r : FeatureRow) : bool :=
  negb (Float.isna (close r)) && negb (Float.isna (sma r)) &&
  negb (Float.isna (macd r)) && negb (Float.isna (macd_signal r)) &&
  negb (Float.isna (rsi r)).

(** The most recent row with all five fields defined. *)
Definition latest_defined (df : DataFrame) : option FeatureRow :=
  match rev (filter all_defined (feature_rows df)) with
  | [] => None
  | r :: _ => Some r
  end.

Definition buy_condition (r : FeatureRow) : Prop :=
  (close r >? sma r)%F = true /\
  (macd r >? macd_signal r)%F = true /\
  (rsi r >? Fin 50)%F = true.

Definition sell_condition (r : FeatureRow) : Prop :=
  (close r <? sma r)%F = true /\
  (macd r <? macd_signal r)%F = true /\
  (rsi r <? Fin 50)%F = true.

(** A feature table as the evaluator expects it: two-level column labels,
    each of the five required fields filed exactly once. *)
Definition feature_table (df : DataFrame) : bool :=
  forallb is_tuple (columns df) &&
  forallb (fun key => List.length (matching key df) =? 1) required_columns.

(** Lines 126-145 with the two branches tried in the other order. *)
Definition decide_latest_sell_first (latest : list (label * fval)) : M string :=
  sell <- and_then (row_lt latest "Close" "SMA")
            (and_then (row_lt latest "MACD" "Signal")
                      (row_lt_const latest "RSI" (Fin 50))) ;;
  if sell then ret "SELL"
  else
    buy <- and_then (row_gt latest "Close" "SMA")
             (and_then (row_gt latest "MACD" "Signal")
                       (row_gt_const latest "RSI" (Fin 50))) ;;
    if buy then ret "BUY" else ret "HOLD".

(** The row of a table as [decide_latest] receives it. *)
Definition as_latest (r : FeatureRow) : list (label * fval) :=
  [ (Name "Close", close r); (Name "SMA", sma r); (Name "MACD", macd r);
    (Name "Signal", macd_signal r); (Name "RSI", rsi r) ].

(** A column relabelled by its first level, its values mapped. *)
Definition relabel {A B : Type} (g : A -> B) (c : label * A) : label * B :=
  (Name (level0 (fst c)), g (snd c)).

(** The signal the rule gives on one row. *)
Definition rule (r : FeatureRow) : string :=
  if (close r >? sma r)%F && (macd r >? macd_signal r)%F
     && (rsi r >? Fin 50)%F then "BUY"
  else if (close r <? sma r)%F && (macd r <? macd_signal r)%F
          && (rsi r <? Fin 50)%F then "SELL"
  else "HOLD".

(** The table [calculate_indicators] builds from a long enough download:
    the downloaded columns followed by the indicator columns, the fallback
    values filled in. *)
Definition indicator_table (sqrt : Q -> Q) (stock_symbol : string)
  (dl : Download) : DataFrame :=
  let lab s := if multi_level_index dl then Tuple s stock_symbol else Name s in
  let new s := if multi_level_index dl then Tuple s "" else Name s in
  let close := map bar_close (bars dl) in
  let volume := map bar_volume (bars dl) in
  let ema12 := ewm_mean 12 close in
  let ema26 := ewm_mean 26 close in
  let macd := zip_with Float.sub ema12 ema26 in
  mkDataFrame
    [ (lab "Close", close);
      (lab "High", map bar_high (bars dl));
      (lab "Low", map bar_low (bars dl));
      (lab "Open", map bar_open (bars dl));
      (lab "Volume", volume);
      (new "SMA",
       ffill (rolling_mean (Nat.min 20 (List.length (bars dl))) close));
      (new "EMA12", ema12);
      (new "EMA26", ema26);
      (new "MACD", fillna (Fin 0) macd);
      (new "Signal", fillna (Fin 0) (ewm_mean 9 macd));
      (new "RSI", fillna (Fin 50) (rsi_of close));
      (new "Volatility",
       fillna (Fin 0) (rolling_std sqrt 10 (pct_change close)));
      (new "AvgVolume", fillna (Fin 0) (rolling_mean 10 volume)) ]
    (List.length (bars dl)).

(** The indicator columns as lines 32-61 compute them, before the
    fallbacks of lines 64-69. *)
Definition closes (dl : Download) : Series := map bar_close (bars dl).
Definition volumes (dl : Download) : Series := map bar_volume (bars dl).

Definition raw_sma (dl : Download) : Series :=
  rolling_mean (Nat.min 20 (List.length (bars dl))) (closes dl).

Definition raw_macd (dl : Download) : Series :=
  zip_with Float.sub (ewm_mean 12 (closes dl)) (ewm_mean 26 (closes dl)).

Definition raw_signal (dl : Download) : Series := ewm_mean 9 (raw_macd dl).

Definition raw_rsi (dl : Download) : Series := rsi_of (closes dl).

Definition raw_volatility (sqrt : Q -> Q) (dl : Download) : Series :=
  rolling_std sqrt 10 (pct_change (closes dl)).

Definition raw_avg_volume (dl : Download) : Series :=
  rolling_mean 10 (volumes dl).

(** [out] is [raw] with every undefined entry replaced by [v]. *)
Definition defaulted (v : fval) (raw out : Series) : Prop :=
  List.length out = List.length raw /\
  forall i, i < List.length raw ->
    nth i out NaN = if Float.isna (nth i raw NaN) then v else nth i raw NaN.

(** [out] is [raw] with every undefined entry replaced by the last defined
    entry before it; before the first defined entry it stays undefined. *)
Definition carried_forward (raw out : Series) : Prop :=
  List.length out = List.length raw /\
  forall i, i < List.length raw ->
    ((forall k, k <= i -> Float.isna (nth k raw NaN) = true) ->
     nth i out NaN = NaN) /\
    (forall j, j <= i ->
       Float.isna (nth j raw NaN) = false ->
       (forall k, j < k -> k <= i -> Float.isna (nth k raw NaN) = true) ->
       nth i out NaN = nth j raw NaN).

(** No entry of the column is undefined. *)
Definition all_valid (s : Series) : Prop :=
  Forall (fun x => Float.isna x = false) s.

(** A value is a number between [lo] and [hi]. *)
Definition within (lo hi : Q) (x : fval) : Prop :=
  match x with
  | Fin q => (lo <= q /\ q <= hi)%Q
  | _ => False
  end.

(** A value is undefined or a non-negative number. *)
Definition nonneg_or_nan (x : fval) : Prop :=
  match x with
  | Fin q => (0 <= q)%Q
  | NaN => True
  | _ => False
  end.

(** A table on which the undefined-value branch of [filter_stocks] runs. *)
Definition table_with_gap : DataFrame :=
  mkDataFrame
    [ (Name "AvgVolume", [Fin 2000000; NaN]);
      (Name "Volatility", [Fin (3 # 100); Fin (3 # 100)]) ]
    2.

(** A square root to run the script with: the integer root of the value
    scaled to six decimals. *)
Definition sqrt_approx (q : Q) : Q :=
  Qmake (Z.sqrt (Qnum q * 1000000000000 / Zpos (Qden q))) 1000000.

Definition bar_of (price volume : Z) : Bar :=
  mkBar (Fin (inject_Z price)) (Fin (inject_Z price)) (Fin (inject_Z price))
        (Fin (inject_Z price)) (Fin (inject_Z volume)).

(** Thirty weeks of a rising, jumpy price on steady volume. *)
Definition thirty_weeks : list Bar :=
  map (fun price => bar_of price 2000000)
    [100; 110; 105; 118; 111; 125; 119; 133; 126; 140;
     131; 147; 139; 155; 146; 160; 151; 168; 158; 175;
     166; 183; 172; 190; 181; 199; 188; 207; 196; 215]%Z.

Definition ten_weeks : list Bar := firstn 10 thirty_weeks.

Definition long_download : Download := mkDownload true thirty_weeks.
Definition short_download : Download := mkDownload true ten_weeks.

Definition serve (dl : Download) (symbol : string) : result Download := Ok dl.

Definition accept_order (symbol : string) (order : Order) : result string :=
  Ok "Submitted".

(** The partial-result reading of a short history: a table comes back
    without an RSI column, with SMA and MACD, and the shortage is
    reported for RSI. *)
Definition partial_table_returned (sqrt : Q -> Q)
  (yf_download : string -> result Download) (stock_symbol : string) : Prop :=
  exists t df,
    calculate_indicators sqrt yf_download stock_symbol = (t, Ok (Some df)) /\
    in_columns "RSI" df = false /\
    in_columns "SMA" df = true /\
    in_columns "MACD" df = true /\
    In (Printed (Not_enough_data_for_RSI stock_symbol)) t.

(** A three-row feature table whose last row lacks the signal line. *)
Definition small_table : DataFrame :=
  mkDataFrame
    [ (Tuple "Close" "AAPL", [Fin 10; Fin 12; Fin 13]);
      (Tuple "SMA" "", [NaN; Fin 11; Fin 12]);
      (Tuple "MACD" "", [Fin 0; Fin 1; Fin 2]);
      (Tuple "Signal" "", [Fin 0; Fin (1 # 2); NaN]);
      (Tuple "RSI" "", [Fin 50; Fin 60; Fin 70]) ]
    3.

(** Sixteen closes, one more each week. *)
Definition rising : Series :=
  map (fun price => Fin (inject_Z price))
    [1; 2; 3; 4; 5; 6; 7; 8; 9; 10; 11; 12; 13; 14; 15; 16]%Z.

(** An account long 500 shares of one symbol. *)
Definition long_500 : list Position := [mkPosition "AAPL" 500].

(** A column label that is a plain string. *)
Definition is_name (l : label) : bool := negb (is_tuple l).

(** * Proof steps used more than once *)

(** Split on [u > v] and [u < v]; [excl] rules out both at once. *)
Ltac split_cmp excl u v :=
  let G := fresh "G" in
  let L := fresh "L" in
  destruct (Float.gt u v) eqn:G; destruct (Float.lt u v) eqn:L;
  [ exfalso; exact (excl u v G L) | | | ].

(** A rejecting run of [filter_stocks]: it passes in no case. *)
Ltac no_pass :=
  split;
  [ split;
    [ discriminate
    | intros (sa' & sv' & Ha & Hv & Hna & Hnv & Hga & Hgv);
      try congruence;
      try (injection Ha as <-); try (injection Hv as <-);
      try congruence ]
  | intros sa' sv' Ha Hv _; reflexivity ].


(** * The rest of the script *)

(** ** is_market_open, lines 180-185 *)

(** A naive time of day, as [datetime.time(hour, minute, second,
    microsecond)]. *)
Record Time : Type := mkTime {
  hour : Z;
  minute : Z;
  second : Z;
  microsecond : Z
}.

(** [dt_time(h, m)] *)
Definition dt_time (h m : Z) : Time := mkTime h m 0 0.

(** [a <= b] on naive times: the (hour, minute, second, microsecond)
    tuples are compared, first difference first. *)
Definition time_le (a b : Time) : bool :=
  if (hour a <? hour b)%Z then true
  else if (hour b <? hour a)%Z then false
  else if (minute a <? minute b)%Z then true
  else if (minute b <? minute a)%Z then false
  else if (second a <? second b)%Z then true
  else if (second b <? second a)%Z then false
  else (microsecond a <=? microsecond b)%Z.

(** [now] is [datetime.now(est).time()]. *)
Definition is_market_open (now : Time) : bool :=
  let market_open := dt_time 9 30 in
  let market_close := dt_time 16 0 in
  time_le market_open now && time_le now market_close.

(** A time of day [datetime.time] can hold. *)
Definition valid_time (t : Time) : Prop :=
  (0 <= hour t < 24 /\ 0 <= minute t < 60 /\ 0 <= second t < 60 /\
   0 <= microsecond t < 1000000)%Z.

(** Microseconds since midnight. *)
Definition micros_of (t : Time) : Z :=
  (((hour t * 60 + minute t) * 60 + second t) * 1000000 + microsecond t)%Z.

(** ** The main loop, lines 226-231 *)

(** What the collaborators answer during one turn of the loop. *)
Record World : Type := mkWorld {
  now : Time;
  sp500 : result (list string);
  download : string -> result Download;
  account : result (list Position);
  broker : string -> Order -> result string
}.

(** What the main loop leaves: the events of a scan, its own line for a
    closed market, its hourly pause. *)
Inductive main_event : Type :=
| FromScan (e : event)
| Printed_market_closed
| Slept (seconds : nat).

(** One turn of [while True]; an exception of [monitor_and_trade] is not
    caught and ends the turn before the pause. *)
Definition main_turn (sqrt : Q -> Q) (w : World) : list main_event * result unit :=
  if is_market_open (now w) then
    match monitor_and_trade sqrt (download w) (sp500 w) (account w) (broker w) with
    | (t, Ok _) => (map FromScan t ++ [Slept 3600], Ok tt)
    | (t, Raise e) => (map FromScan t, Raise e)
    end
  else ([Printed_market_closed; Slept 3600], Ok tt).

(** The first [fuel] turns of the loop from turn [k] on; an exception ends
    the loop. *)
Fixpoint main_loop (sqrt : Q -> Q) (world : nat -> World) (k fuel : nat)
  : list main_event * result unit :=
  match fuel with
  | 0 => ([], Ok tt)
  | S fuel' =>
      match main_turn sqrt (world k) with
      | (t, Ok _) =>
          let '(t', r) := main_loop sqrt world (S k) fuel' in (t ++ t', r)
      | (t, Raise e) => (t, Raise e)
      end
  end.

(** The orders among the events of the main loop. *)
Fixpoint main_orders (t : list main_event) : list (string * Order) :=
  match t with
  | [] => []
  | FromScan (PlaceOrder s o) :: t' => (s, o) :: main_orders t'
  | _ :: t' => main_orders t'
  end.

(** A turn that ends in an exception: the market is open and the
    membership list cannot be fetched. *)
Definition turn_fails (w : World) : bool :=
  is_market_open (now w) &&
  match sp500 w with Raise _ => true | Ok _ => false end.

(** ** Reference formulas *)

(** The exponential average as the recursion
    [y0 = x0], [y(t) = (1 - alpha) * y(t-1) + alpha * x(t)]. *)
Fixpoint ema_from (alpha prev : Q) (xs : list Q) : list Q :=
  match xs with
  | [] => []
  | x :: xs' =>
      let y := ((1 - alpha) * prev + alpha * x)%Q in
      y :: ema_from alpha y xs'
  end.

Definition ema_recursion (alpha : Q) (xs : list Q) : list Q :=
  match xs with
  | [] => []
  | x :: xs' => x :: ema_from alpha x xs'
  end.

(** Two values are the same number, or the same special value. *)
Definition same_value (x y : fval) : Prop :=
  match x, y with
  | Fin a, Fin b => (a == b)%Q
  | PInf, PInf | NInf, NInf | NaN, NaN => True
  | _, _ => False
  end.


(** One pass of the loop over a symbol, started with no local variables:
    its trace. *)
Definition pass (sqrt : Q -> Q) (yf_download : string -> result Download)
  (ib_positions : result (list Position))
  (ib_placeOrder : string -> Order -> result string)
  (stock_symbol : string) : list event :=
  trace (loop_body sqrt yf_download ib_positions ib_placeOrder stock_symbol
           no_locals).

(** An order [place_order] may place for a symbol holding [p] shares. *)
Definition sound_order (stock_symbol : string) (p : Q) (o : string * Order) : Prop :=
  fst o = stock_symbol /\
  ((snd o = MarketOrder "BUY" 10 /\ (p <= 0)%Q) \/
   (snd o = MarketOrder "SELL" p /\ (0 < p)%Q)).

(** A line that is neither a signal report nor an order nor a pause. *)
Definition is_diagnostic (e : event) : bool :=
  match e with
  | Printed (Signal_is _ _) => false
  | Printed _ => true
  | _ => false
  end.

(** Take the next [match] of the goal apart. *)
Ltac next_case :=
  match goal with
  | |- context [match ?x with _ => _ end] => destruct x eqn:?
  end.

(** [latest] is the last row of the table once relabelled as line 107
    does and cleaned as line 120 does. *)
Definition latest_row_of (df : DataFrame) (latest : list (label * fval)) : Prop :=
  exists names,
    first_of_all (columns df) = Ok names /\
    iloc_last (dropna required_columns (set_columns names df)) = Ok latest.

(** The five required fields of [latest] are single values, those of [r]. *)
Definition reads (latest : list (label * fval)) (r : FeatureRow) : Prop :=
  row_get "Close" latest = Ok (Scalar (close r)) /\
  row_get "SMA" latest = Ok (Scalar (sma r)) /\
  row_get "MACD" latest = Ok (Scalar (macd r)) /\
  row_get "Signal" latest = Ok (Scalar (macd_signal r)) /\
  row_get "RSI" latest = Ok (Scalar (rsi r)).

(** What [filter_stocks] answers, read off the two latest values. *)
Definition liquid (df : DataFrame) (min_volume min_volatility : Q) : bool :=
  match iloc_last_of "AvgVolume" df, iloc_last_of "Volatility" df with
  | Ok (Scalar a), Ok (Scalar v) =>
      (a >? Fin min_volume)%F && (v >? Fin min_volatility)%F
  | _, _ => false
  end.

(** ** Inputs to run the rest of the script on *)

Definition plain_download : Download := mkDownload false thirty_weeks.

(** A download service that fails for one symbol. *)
Definition flaky (symbol : string) : result Download :=
  if String.eqb symbol "BAD" then Raise (ExternalError "no data")
  else Ok long_download.

(** A one-row table well above the default thresholds. *)
Definition liquid_table : DataFrame :=
  mkDataFrame
    [ (Name "AvgVolume", [Fin 2000000]);
      (Name "Volatility", [Fin (3 # 100)]) ]
    1.

Definition evening : World :=
  mkWorld (mkTime 20 0 0 0) (Ok ["AAPL"]) (serve long_download) (Ok [])
    accept_order.

Definition morning_without_list : World :=
  mkWorld (mkTime 10 0 0 0) (Raise (ExternalError "no list"))
    (serve long_download) (Ok []) accept_order.

(** Two evenings, then mornings on which the list cannot be fetched. *)
Definition two_evenings_then_failure (turn : nat) : World :=
  if turn <? 2 then evening else morning_without_list.

(** * Properties *)

(** ** Comparisons on the rationals *)

Arguments Float.gt : simpl never.
Arguments Float.lt : simpl never.

Lemma Qltb_true (x y : Q) : Float.Qltb x y = true <-> (x < y)%Q.
Proof.
  unfold Float.Qltb. rewrite negb_true_iff.
  split; intro H.
  - apply Qnot_le_lt. intro Hle. apply Qle_bool_iff in Hle. congruence.
  - destruct (Qle_bool y x) eqn:E; [|reflexivity].
    apply Qle_bool_iff in E. exfalso. apply (Qlt_not_le _ _ H E).
Qed.

Lemma Qltb_false (x y : Q) : Float.Qltb x y = false <-> (y <= x)%Q.
Proof.
  unfold Float.Qltb. rewrite negb_false_iff. apply Qle_bool_iff.
Qed.

Lemma Qle_bool_false (x y : Q) : Qle_bool x y = false <-> (y < x)%Q.
Proof.
  rewrite <- Qltb_true. unfold Float.Qltb.
  destruct (Qle_bool x y); simpl; split; congruence.
Qed.

(** [x > y] and [x < y] never hold together, NaN and infinities included. *)
Lemma gt_lt_exclusive (x y : fval) :
  Float.gt x y = true -> Float.lt x y = true -> False.
Proof.
  unfold Float.lt, Float.gt.
  destruct x as [a| | |], y as [b| | |]; try discriminate.
  rewrite !Qltb_true. intros H1 H2.
  apply (Qlt_irrefl a). now apply Qlt_trans with b.
Qed.

(** ** The monad *)

Lemma try_except_ok {A} (body : M A) (handler : exn -> M A) :
  (forall e, exists t a, handler e = (t, Ok a)) ->
  exists t a, try_except body handler = (t, Ok a).
Proof.
  intros Hh. destruct body as [t [a|e]]; simpl.
  - now exists t, a.
  - destruct (Hh e) as (t' & a & ->). now exists (t ++ t'), a.
Qed.

Lemma bind_ok {A B} (t : list event) (a : A) (k : A -> M B) :
  bind (t, Ok a) k = (t ++ fst (k a), snd (k a)).
Proof. simpl. now destruct (k a). Qed.

Lemma bind_lift_ok {A B} (a : A) (k : A -> M B) :
  bind (lift (Ok a)) k = k a.
Proof. unfold lift, bind. now destruct (k a). Qed.

(** ** place_order *)

Lemma placed_buy broker positions sym :
  placed broker positions sym "BUY" =
  if Float.Qltb 0 (current_position_of positions sym) then []
  else [(sym, MarketOrder "BUY" 10)].
Proof.
  unfold placed, place_order. simpl.
  destruct (Float.Qltb 0 _); simpl; [reflexivity|].
  now destruct (broker _ _).
Qed.

Lemma placed_sell broker positions sym :
  placed broker positions sym "SELL" =
  if Qle_bool (current_position_of positions sym) 0 then []
  else [(sym, MarketOrder "SELL" (current_position_of positions sym))].
Proof.
  unfold placed, place_order. simpl.
  destruct (Qle_bool _ 0); simpl; [reflexivity|].
  now destruct (broker _ _).
Qed.

Lemma placed_other broker positions sym (a : string) :
  a <> "BUY" -> a <> "SELL" -> placed broker positions sym a = [].
Proof.
  intros Hb Hs. unfold placed, place_order. simpl.
  apply String.eqb_neq in Hb, Hs. now rewrite Hb, Hs.
Qed.

(** C1.  The order handed to the broker follows the reconciliation table:
    with [p] the current net position, BUY while [p > 0] places nothing,
    BUY while [p <= 0] places a BUY of 10 shares, SELL while [p > 0] places
    a SELL of exactly [p] shares, SELL while [p <= 0] places nothing; so
    every order placed, for any action, has a positive quantity. *)
Theorem place_order_reconciliation
  (broker : string -> Order -> result string)
  (positions : list Position) (sym : string) :
  let p := current_position_of positions sym in
  ((0 < p)%Q -> placed broker positions sym "BUY" = []) /\
  ((p <= 0)%Q ->
   placed broker positions sym "BUY" = [(sym, MarketOrder "BUY" 10)]) /\
  ((0 < p)%Q ->
   placed broker positions sym "SELL" = [(sym, MarketOrder "SELL" p)]) /\
  ((p <= 0)%Q -> placed broker positions sym "SELL" = []) /\
  (forall a s o,
      In (s, o) (placed broker positions sym a) -> (0 < totalQuantity o)%Q).
Proof.
  intros p. repeat split.
  - intros H. rewrite placed_buy. apply Qltb_true in H. fold p. now rewrite H.
  - intros H. rewrite placed_buy. apply Qltb_false in H. fold p. now rewrite H.
  - intros H. rewrite placed_sell. apply Qle_bool_false in H. fold p.
    now rewrite H.
  - intros H. rewrite placed_sell. apply Qle_bool_iff in H. fold p.
    now rewrite H.
  - intros a s o Hin.
    destruct (string_dec a "BUY") as [->|Hb].
    + rewrite placed_buy in Hin. destruct (Float.Qltb 0 _); simpl in Hin.
      * contradiction.
      * destruct Hin as [[= <- <-]|[]]. reflexivity.
    + destruct (string_dec a "SELL") as [->|Hs].
      * rewrite placed_sell in Hin. fold p in Hin.
        destruct (Qle_bool p 0) eqn:E; simpl in Hin.
        -- contradiction.
        -- destruct Hin as [[= <- <-]|[]]. simpl. now apply Qle_bool_false.
      * now rewrite placed_other in Hin.
Qed.

(** ** The decision on the latest row *)

Lemma conditions_exclusive (r : FeatureRow) :
  buy_condition r -> sell_condition r -> False.
Proof.
  intros (Hb & _) (Hs & _). exact (gt_lt_exclusive _ _ Hb Hs).
Qed.

Lemma decide_latest_order (latest : list (label * fval)) :
  decide_latest latest = decide_latest_sell_first latest.
Proof.
  unfold decide_latest, decide_latest_sell_first, and_then,
    row_gt, row_lt, row_gt_const, row_lt_const, truth_gt, truth_lt.
  destruct (row_get "Close" latest) as [[c|]|e1]; try reflexivity;
  destruct (row_get "SMA" latest) as [[s|]|e2]; try reflexivity.
  simpl. split_cmp gt_lt_exclusive c s; simpl; try reflexivity.
  - destruct (row_get "MACD" latest) as [[m|]|e3]; try reflexivity;
    destruct (row_get "Signal" latest) as [[g|]|e4]; try reflexivity.
    simpl. destruct (Float.gt m g); simpl; try reflexivity.
    destruct (row_get "RSI" latest) as [[x|]|e5]; try reflexivity.
    simpl. now destruct (Float.gt x (Fin 50)).
  - destruct (row_get "MACD" latest) as [[m|]|e3]; try reflexivity;
    destruct (row_get "Signal" latest) as [[g|]|e4]; try reflexivity.
    simpl. destruct (Float.lt m g); simpl; try reflexivity.
    destruct (row_get "RSI" latest) as [[x|]|e5]; try reflexivity.
    simpl. now destruct (Float.lt x (Fin 50)).
Qed.

(** What [decide_latest] answers on a row whose five fields are scalars. *)
Lemma decide_latest_scalars (latest : list (label * fval)) (r : FeatureRow) :
  row_get "Close" latest = Ok (Scalar (close r)) ->
  row_get "SMA" latest = Ok (Scalar (sma r)) ->
  row_get "MACD" latest = Ok (Scalar (macd r)) ->
  row_get "Signal" latest = Ok (Scalar (macd_signal r)) ->
  row_get "RSI" latest = Ok (Scalar (rsi r)) ->
  decide_latest latest =
  ([], Ok (rule r)).
Proof.
  intros H1 H2 H3 H4 H5.
  unfold decide_latest, and_then,
    row_gt, row_lt, row_gt_const, row_lt_const, truth_gt, truth_lt.
  rewrite H1, H2, H3, H4, H5. unfold rule. simpl.
  destruct (close r >? sma r)%F; simpl;
    [destruct (macd r >? macd_signal r)%F; simpl;
     [destruct (rsi r >? Fin 50)%F; simpl; [reflexivity|]|]|];
    (destruct (close r <? sma r)%F; simpl;
     [destruct (macd r <? macd_signal r)%F; simpl;
      [destruct (rsi r <? Fin 50)%F; simpl|]|]); reflexivity.
Qed.

Lemma decide_as_latest (r : FeatureRow) :
  decide_latest (as_latest r) =
  ([], Ok (rule r)).
Proof. now apply decide_latest_scalars. Qed.

Lemma signal_of_conditions (r : FeatureRow) (signal : string) :
  signal = rule r ->
  (signal = "BUY" <-> buy_condition r) /\
  (signal = "SELL" <-> sell_condition r) /\
  (signal = "HOLD" <-> ~ buy_condition r /\ ~ sell_condition r).
Proof.
  intros ->. unfold rule, buy_condition, sell_condition.
  split_cmp gt_lt_exclusive (close r) (sma r); simpl.
  - destruct (macd r >? macd_signal r)%F; simpl;
      [destruct (rsi r >? Fin 50)%F; simpl|];
      repeat split; intros; try discriminate; try tauto;
      intuition discriminate.
  - destruct (macd r <? macd_signal r)%F; simpl;
      [destruct (rsi r <? Fin 50)%F; simpl|];
      repeat split; intros; try discriminate; try tauto;
      intuition discriminate.
  - repeat split; intros; try discriminate; try tauto; intuition discriminate.
Qed.

(** C9.  On any row the BUY condition and the SELL condition never hold
    together, and trying the SELL branch before the BUY branch changes
    nothing in what the decision returns, on any latest row whatever. *)
Theorem buy_sell_never_both :
  (forall r, ~ (buy_condition r /\ sell_condition r)) /\
  (forall latest, decide_latest latest = decide_latest_sell_first latest) /\
  (forall r,
      (outcome (decide_latest (as_latest r)) = Ok "BUY" <-> buy_condition r) /\
      (outcome (decide_latest (as_latest r)) = Ok "SELL" <-> sell_condition r)).
Proof.
  split; [|split].
  - intros r [Hb Hs]. exact (conditions_exclusive r Hb Hs).
  - exact decide_latest_order.
  - intros r. rewrite decide_as_latest. simpl.
    destruct (signal_of_conditions r _ eq_refl) as (Hb & Hs & _).
    split.
    + rewrite <- Hb. split; [intros [= ->]; reflexivity | intros ->; reflexivity].
    + rewrite <- Hs. split; [intros [= ->]; reflexivity | intros ->; reflexivity].
Qed.

(** ** Tables with two-level labels *)

Lemma first_of_all_tuples (ls : list label) :
  forallb is_tuple ls = true -> first_of_all ls = Ok (map level0 ls).
Proof.
  induction ls as [|l ls IH]; simpl; [reflexivity|].
  intros H. apply andb_true_iff in H as [Hl Hls].
  destruct l as [s|s t]; [discriminate|]. simpl. now rewrite IH.
Qed.

Lemma set_columns_level0 (df : DataFrame) :
  set_columns (map level0 (columns df)) df =
  mkDataFrame (map (relabel (fun s => s)) (cols df)) (nrows df).
Proof.
  unfold set_columns, columns. f_equal.
  induction (cols df) as [|c l IH]; simpl; [reflexivity|].
  now rewrite IH.
Qed.

Lemma filter_relabel {A B : Type} (g : A -> B) (key : string)
  (l : list (label * A)) :
  filter (fun c => String.eqb (level0 (fst c)) key) (map (relabel g) l) =
  map (relabel g) (filter (fun c => String.eqb (level0 (fst c)) key) l).
Proof. now rewrite filter_map_swap. Qed.

Lemma matching_in (key : string) (df : DataFrame) (c : label * Series) :
  In c (matching key df) <-> In c (cols df) /\ level0 (fst c) = key.
Proof.
  unfold matching. rewrite filter_In, String.eqb_eq. tauto.
Qed.

Lemma in_columns_true (key : string) (df : DataFrame) (c : label * Series) :
  In c (matching key df) -> in_columns key df = true.
Proof.
  intros H. apply matching_in in H as [Hin Hk].
  unfold in_columns, columns. apply existsb_exists.
  exists (fst c). split; [now apply in_map|]. now apply String.eqb_eq.
Qed.

Lemma feature_table_unique (df : DataFrame) :
  feature_table df = true ->
  forall key, In key required_columns ->
    exists c, matching key df = [c].
Proof.
  unfold feature_table. intros H key Hk.
  apply andb_true_iff in H as [_ H].
  rewrite forallb_forall in H. specialize (H key Hk).
  apply Nat.eqb_eq in H.
  destruct (matching key df) as [|c [|c' l]]; try discriminate.
  now exists c.
Qed.

Lemma field_unique (key : string) (df : DataFrame) (c : label * Series) :
  matching key df = [c] -> field key df = snd c.
Proof. unfold field. intros ->. now destruct c. Qed.

Lemma row_defined_relabel (subset : list string) (l : list (label * Series))
  (n i : nat) :
  row_defined subset (mkDataFrame (map (relabel (fun s => s)) l) n) i =
  row_defined subset (mkDataFrame l n) i.
Proof.
  unfold row_defined. simpl.
  induction l as [|c l IH]; simpl; [reflexivity|]. now rewrite IH.
Qed.

Lemma all_defined_fields (df : DataFrame) (i : nat) :
  all_defined (feature_row df i) = true <->
  forall key, In key required_columns ->
    Float.isna (nth i (field key df) NaN) = false.
Proof.
  unfold all_defined, feature_row, required_columns. simpl.
  rewrite !andb_true_iff, !negb_true_iff. split.
  - intros ((((H1 & H2) & H3) & H4) & H5) key
      [<-|[<-|[<-|[<-|[<-|[]]]]]]; assumption.
  - intros H. repeat split; apply H; tauto.
Qed.

Lemma row_defined_fields (df : DataFrame) (i : nat) :
  feature_table df = true ->
  (row_defined required_columns df i = true <->
   forall key, In key required_columns ->
     Float.isna (nth i (field key df) NaN) = false).
Proof.
  intros Hft. unfold row_defined. rewrite forallb_forall. split.
  - intros H key Hk.
    destruct (feature_table_unique df Hft key Hk) as [c Hc].
    rewrite (field_unique _ _ _ Hc).
    assert (Hin : In c (matching key df)) by (rewrite Hc; now left).
    apply matching_in in Hin as [Hin Hlab].
    specialize (H c Hin). cbv beta in H.
    match type of H with
    | (if ?b then _ else _) = _ => assert (E : b = true)
    end.
    { apply existsb_exists. exists key. split; [assumption|].
      now apply String.eqb_eq. }
    rewrite E in H. now apply negb_true_iff.
  - intros H c Hin.
    destruct (existsb _ required_columns) eqn:E; [|reflexivity].
    apply existsb_exists in E as (key & Hk & Heq).
    apply String.eqb_eq in Heq.
    destruct (feature_table_unique df Hft key Hk) as [c' Hc'].
    assert (Hm : In c (matching key df)) by (apply matching_in; tauto).
    rewrite Hc' in Hm. destruct Hm as [->|[]].
    apply negb_true_iff. specialize (H key Hk).
    rewrite (field_unique _ _ _ Hc') in H. exact H.
Qed.

Lemma row_defined_all_defined (df : DataFrame) (i : nat) :
  feature_table df = true ->
  row_defined required_columns df i = all_defined (feature_row df i).
Proof.
  intros Hft. apply eq_iff_eq_true.
  now rewrite row_defined_fields, all_defined_fields.
Qed.

Lemma kept_rows_all_defined (df : DataFrame) :
  feature_table df = true ->
  kept_rows required_columns
    (mkDataFrame (map (relabel (fun s => s)) (cols df)) (nrows df)) =
  filter (fun i => all_defined (feature_row df i)) (seq 0 (nrows df)).
Proof.
  intros Hft. unfold kept_rows. simpl. apply filter_ext. intros i.
  rewrite row_defined_relabel.
  destruct df as [l n]. simpl. now apply row_defined_all_defined.
Qed.

Lemma latest_defined_kept (df : DataFrame) :
  latest_defined df =
  match rev (filter (fun i => all_defined (feature_row df i))
               (seq 0 (nrows df))) with
  | [] => None
  | k :: _ => Some (feature_row df k)
  end.
Proof.
  unfold latest_defined, feature_rows.
  rewrite filter_map_swap, <- map_rev.
  now destruct (rev _).
Qed.

Lemma rev_head_nth {A : Type} (l : list A) (k d : A) (rest : list A) :
  rev l = k :: rest -> 0 < List.length l /\ nth (List.length l - 1) l d = k.
Proof.
  intros H.
  assert (Hlen : 0 < List.length l).
  { rewrite <- length_rev, H. simpl. lia. }
  split; [assumption|].
  rewrite <- (rev_nth l d Hlen), H. reflexivity.
Qed.

(** The last row of the cleaned table, read off the original columns. *)
Lemma iloc_last_dropna (df : DataFrame) (subset : list string)
  (k : nat) (rest : list nat) :
  let flat := mkDataFrame (map (relabel (fun s => s)) (cols df)) (nrows df) in
  rev (kept_rows subset flat) = k :: rest ->
  iloc_last (dropna subset flat) =
  Ok (map (relabel (fun s : Series => nth k s NaN)) (cols df)).
Proof.
  intros flat Hrev.
  destruct (rev_head_nth _ k 0 rest Hrev) as [Hlen Hk].
  unfold iloc_last, dropna. simpl nrows.
  destruct (Nat.eqb_spec (List.length (kept_rows subset flat)) 0) as [E|_];
    [lia|].
  f_equal. simpl cols. rewrite !map_map. apply map_ext. intros c.
  unfold relabel. simpl. f_equal.
  rewrite <- (nth_nth_nth_map (snd c) NaN (kept_rows subset flat) (dn := 0)).
  - now rewrite Hk.
  - left. lia.
Qed.

Lemma row_get_relabel (key : string) (df : DataFrame) (c : label * Series)
  (k : nat) :
  matching key df = [c] ->
  row_get key (map (relabel (fun s : Series => nth k s NaN)) (cols df)) =
  Ok (Scalar (nth k (field key df) NaN)).
Proof.
  intros Hc. unfold row_get. rewrite filter_relabel.
  fold (matching key df). rewrite (field_unique _ _ _ Hc), Hc. reflexivity.
Qed.

Lemma required_in_flat (df : DataFrame) :
  feature_table df = true ->
  forallb
    (fun col =>
       in_columns col
         (mkDataFrame (map (relabel (fun s => s)) (cols df)) (nrows df)))
    required_columns = true.
Proof.
  intros Hft. apply forallb_forall. intros key Hk.
  destruct (feature_table_unique df Hft key Hk) as [c Hc].
  apply in_columns_true with (c := relabel (fun s => s) c).
  unfold matching. simpl cols. rewrite filter_relabel.
  fold (matching key df). rewrite Hc. now left.
Qed.

Lemma feature_table_tuples (df : DataFrame) :
  feature_table df = true -> forallb is_tuple (columns df) = true.
Proof. unfold feature_table. intros H. now apply andb_true_iff in H. Qed.

Lemma outcome_try_print {A} (m : msg) (c : M A) (h : exn -> M A) :
  outcome (try_except (print m ;; c) h) = outcome (try_except c h).
Proof.
  destruct c as [t [a|e]]; simpl; [reflexivity|]. now destruct (h e).
Qed.

Lemma cleaned_has_columns (df : DataFrame) (subset : list string) :
  feature_table df = true ->
  (List.length
     (cols (dropna subset
              (mkDataFrame (map (relabel (fun s => s)) (cols df)) (nrows df))))
   =? 0) = false.
Proof.
  intros Hft. apply Nat.eqb_neq. unfold dropna. simpl. rewrite !length_map.
  destruct (feature_table_unique df Hft "Close") as [c Hc]; [now left|].
  assert (Hin : In c (matching "Close" df)) by (rewrite Hc; now left).
  apply matching_in in Hin as [Hin _].
  destruct (cols df); [contradiction|simpl; lia].
Qed.

(** What the evaluator returns on a feature table. *)
Lemma evaluate_outcome (df : DataFrame) :
  feature_table df = true ->
  outcome (fst (evaluate_trading_signals df)) =
  Ok (match latest_defined df with
      | None => "HOLD"
      | Some r => rule r
      end).
Proof.
  intros Hft. unfold evaluate_trading_signals.
  rewrite (first_of_all_tuples _ (feature_table_tuples df Hft)).
  rewrite set_columns_level0.
  cbn [fst]. rewrite outcome_try_print.
  rewrite (required_in_flat df Hft). cbn [negb].
  unfold empty. rewrite (cleaned_has_columns df _ Hft), orb_false_r.
  rewrite latest_defined_kept, <- (kept_rows_all_defined df Hft).
  destruct (rev (kept_rows required_columns _)) as [|k rest] eqn:Hrev.
  - apply (f_equal (@rev nat)) in Hrev. rewrite rev_involutive in Hrev.
    unfold dropna at 1. cbn [nrows]. rewrite Hrev. reflexivity.
  - destruct (rev_head_nth _ k 0 rest Hrev) as [Hlen _].
    rewrite (iloc_last_dropna df required_columns k rest Hrev).
    unfold dropna. cbn [nrows].
    destruct (Nat.eqb_spec
                (List.length
                   (kept_rows required_columns
                      (mkDataFrame (map (relabel (fun s => s)) (cols df))
                         (nrows df)))) 0)
      as [E|_]; [lia|].
    assert (Hd : decide_latest
                   (map (relabel (fun s : Series => nth k s NaN)) (cols df)) =
                 ([], Ok (rule (feature_row df k)))).
    { apply decide_latest_scalars; unfold feature_row;
        cbn [close sma macd macd_signal rsi];
        match goal with
        | |- row_get ?key _ = _ =>
            destruct (feature_table_unique df Hft key) as [c Hc];
            [unfold required_columns; simpl; tauto|];
            exact (row_get_relabel key df c k Hc)
        end. }
    unfold lift. rewrite bind_ok, Hd. reflexivity.
Qed.

(** C2.  On a feature table the evaluator looks only at the rows whose
    close, sma, macd, macd_signal and rsi are all defined; on the most
    recent such row it returns BUY iff close > sma, macd > macd_signal and
    rsi > 50, SELL iff close < sma, macd < macd_signal and rsi < 50, and
    HOLD iff neither; with no such row it returns HOLD. *)
Theorem evaluate_trading_signals_rule (df : DataFrame) :
  feature_table df = true ->
  exists signal,
    outcome (fst (evaluate_trading_signals df)) = Ok signal /\
    match latest_defined df with
    | None => signal = "HOLD"
    | Some r =>
        (signal = "BUY" <-> buy_condition r) /\
        (signal = "SELL" <-> sell_condition r) /\
        (signal = "HOLD" <-> ~ buy_condition r /\ ~ sell_condition r)
    end.
Proof.
  intros Hft. rewrite (evaluate_outcome df Hft).
  destruct (latest_defined df) as [r|].
  - exists (rule r). split; [reflexivity|].
    now apply signal_of_conditions.
  - now exists "HOLD".
Qed.

(** ** filter_stocks *)

Lemma gt_nan_l (y : fval) : Float.gt NaN y = false.
Proof. reflexivity. Qed.

(** C7.  [filter_stocks] always returns a Boolean (it never raises) and
    hands the table back unchanged.  It passes exactly when the table has
    an AvgVolume and a Volatility column whose latest values are above
    [min_volume] and [min_volatility]; when either latest value is
    undefined it rejects. *)
Theorem filter_stocks_contract (df : DataFrame) (min_volume min_volatility : Q) :
  exists t passed,
    filter_stocks df min_volume min_volatility = ((t, Ok passed), df) /\
    (passed = true <->
     exists sa sv,
       getitem "AvgVolume" df = Ok (IsSeries sa) /\
       getitem "Volatility" df = Ok (IsSeries sv) /\
       sa <> [] /\ sv <> [] /\
       (last sa NaN >? Fin min_volume)%F = true /\
       (last sv NaN >? Fin min_volatility)%F = true) /\
    (forall sa sv,
        getitem "AvgVolume" df = Ok (IsSeries sa) ->
        getitem "Volatility" df = Ok (IsSeries sv) ->
        Float.isna (last sa NaN) = true \/ Float.isna (last sv NaN) = true ->
        passed = false).
Proof.
  unfold filter_stocks, iloc_last_of, last_value.
  destruct (getitem "AvgVolume" df) as [[sa|suba]|ea].
  - destruct sa as [|a0 sa].
    { eexists _, false. split; [reflexivity|]. no_pass. }
    set (a := last (a0 :: sa) NaN).
    destruct (getitem "Volatility" df) as [[sv|subv]|ev].
    + destruct sv as [|v0 sv].
      { eexists _, false. split; [reflexivity|]. no_pass. }
      set (v := last (v0 :: sv) NaN).
      simpl. destruct (Float.isna a) eqn:Ea.
      { eexists _, false. split; [reflexivity|]. split.
        - split; [discriminate|].
          intros (sa' & sv' & [= <-] & [= <-] & _ & _ & Hga & _).
          fold a in Hga. destruct a; try discriminate.
        - reflexivity. }
      simpl. destruct (Float.isna v) eqn:Ev.
      { eexists _, false. split; [reflexivity|]. split.
        - split; [discriminate|].
          intros (sa' & sv' & [= <-] & [= <-] & _ & _ & _ & Hgv).
          fold v in Hgv. destruct v; try discriminate.
        - reflexivity. }
      simpl. destruct (a >? Fin min_volume)%F eqn:Ga; simpl.
      * destruct (v >? Fin min_volatility)%F eqn:Gv.
        -- eexists _, true. split; [reflexivity|]. split.
           ++ split; [|reflexivity]. intros _.
              exists (a0 :: sa), (v0 :: sv).
              repeat split; try discriminate; assumption.
           ++ intros sa' sv' [= <-] [= <-]. fold a v.
              rewrite Ea, Ev. intros [|]; discriminate.
        -- eexists _, false. split; [reflexivity|]. split.
           ++ split; [discriminate|].
              intros (sa' & sv' & [= <-] & [= <-] & _ & _ & _ & Hgv).
              fold v in Hgv. congruence.
           ++ reflexivity.
      * eexists _, false. split; [reflexivity|]. split.
        -- split; [discriminate|].
           intros (sa' & sv' & [= <-] & [= <-] & _ & _ & Hga & _).
           fold a in Hga. congruence.
        -- reflexivity.
    + destruct (nrows df =? 0); simpl;
        [|destruct (Float.isna a)];
        (eexists _, false; split; [reflexivity|]; no_pass).
    + eexists _, false. split; [reflexivity|]. no_pass.
  - destruct (nrows df =? 0); simpl.
    { eexists _, false. split; [reflexivity|]. no_pass. }
    destruct (getitem "Volatility" df) as [[[|v0 sv]|subv]|ev]; simpl;
      (eexists _, false; split; [reflexivity|]; no_pass).
  - eexists _, false. split; [reflexivity|]. no_pass.
Qed.

(** ** Columns: lengths and fills *)

Lemma length_zip_with (f : fval -> fval -> fval) (a b : Series) :
  List.length (zip_with f a b) = Nat.min (List.length a) (List.length b).
Proof.
  revert b. induction a as [|x a IH]; intros [|y b]; simpl; auto.
Qed.

Lemma length_shift1 (s : Series) : List.length (shift1 s) = List.length s.
Proof.
  destruct s as [|x s]; [reflexivity|].
  unfold shift1. cbn [List.length]. f_equal.
  revert x. induction s as [|y s IH]; intros x; [reflexivity|].
  change (removelast (x :: y :: s)) with (x :: removelast (y :: s)).
  cbn [List.length]. now rewrite IH.
Qed.

Lemma length_diff (s : Series) : List.length (diff s) = List.length s.
Proof. unfold diff. rewrite length_zip_with, length_shift1. lia. Qed.

Lemma length_where (cond : fval -> bool) (other : fval) (s : Series) :
  List.length (where_ cond other s) = List.length s.
Proof. apply length_map. Qed.

Lemma length_fillna (v : fval) (s : Series) :
  List.length (fillna v s) = List.length s.
Proof. apply length_map. Qed.

Lemma length_ffill_from (last : fval) (s : Series) :
  List.length (ffill_from last s) = List.length s.
Proof.
  revert last. induction s as [|x s IH]; intros last; simpl; auto.
Qed.

Lemma length_ffill (s : Series) : List.length (ffill s) = List.length s.
Proof. apply length_ffill_from. Qed.

Lemma length_rolling_mean (w : nat) (s : Series) :
  List.length (rolling_mean w s) = List.length s.
Proof. unfold rolling_mean. now rewrite length_map, length_seq. Qed.

Lemma length_rolling_std (sqrt : Q -> Q) (w : nat) (s : Series) :
  List.length (rolling_std sqrt w s) = List.length s.
Proof. unfold rolling_std. now rewrite length_map, length_seq. Qed.

Lemma length_ewm_scan (alpha : Q) (st : fval * Q) (s : Series) :
  List.length (ewm_scan alpha st s) = List.length s.
Proof.
  revert st. induction s as [|x s IH]; intros st; simpl; auto.
Qed.

Lemma length_ewm_mean (span : nat) (s : Series) :
  List.length (ewm_mean span s) = List.length s.
Proof.
  destruct s as [|x s]; [reflexivity|].
  unfold ewm_mean. cbn [List.length]. now rewrite length_ewm_scan.
Qed.

Lemma length_pct_change (s : Series) :
  List.length (pct_change s) = List.length s.
Proof.
  unfold pct_change.
  rewrite length_zip_with, length_shift1, length_ffill. lia.
Qed.

Lemma length_rsi_of (close : Series) :
  List.length (rsi_of close) = List.length close.
Proof.
  unfold rsi_of, avg_gain_of, avg_loss_of, gain_of, loss_of, price_delta.
  rewrite length_zip_with, !length_rolling_mean, length_map, !length_where,
    length_diff.
  lia.
Qed.

Lemma nth_fillna (v : fval) (s : Series) (i : nat) :
  i < List.length s ->
  nth i (fillna v s) NaN =
  if Float.isna (nth i s NaN) then v else nth i s NaN.
Proof.
  revert i. induction s as [|x s IH]; intros [|i] Hi; simpl in *;
    try lia; [reflexivity|].
  apply IH. lia.
Qed.

Lemma fillna_defined (v : fval) (s : Series) :
  Float.isna v = false ->
  Forall (fun x => Float.isna x = false) (fillna v s).
Proof.
  intros Hv. unfold fillna. apply Forall_map, Forall_forall. intros x _.
  destruct (Float.isna x) eqn:E; assumption.
Qed.

(** While nothing valid has been seen, the fill hands on what it was
    given. *)
Lemma ffill_from_missing (s : Series) (last : fval) (i : nat) :
  i < List.length s ->
  (forall k, k <= i -> Float.isna (nth k s NaN) = true) ->
  nth i (ffill_from last s) NaN = last.
Proof.
  revert last i. induction s as [|x s IH]; intros last i Hi Hk.
  - simpl in Hi. lia.
  - assert (Hx : Float.isna x = true) by (apply (Hk 0); lia).
    simpl. rewrite Hx. destruct i as [|i]; [reflexivity|].
    apply IH; [simpl in Hi; lia|].
    intros k Hle. apply (Hk (S k)). lia.
Qed.

(** Past a valid value the fill hands on that value until the next valid
    one. *)
Lemma ffill_from_carry (s : Series) (last : fval) (i j : nat) :
  j <= i -> i < List.length s ->
  Float.isna (nth j s NaN) = false ->
  (forall k, j < k -> k <= i -> Float.isna (nth k s NaN) = true) ->
  nth i (ffill_from last s) NaN = nth j s NaN.
Proof.
  revert last i j. induction s as [|x s IH]; intros last i j Hji Hi Hj Hk.
  - simpl in Hi. lia.
  - destruct j as [|j].
    + simpl in Hj. simpl. rewrite Hj.
      destruct i as [|i]; [reflexivity|].
      apply ffill_from_missing; [simpl in Hi; lia|].
      intros k Hle. apply (Hk (S k)); lia.
    + destruct i as [|i]; [lia|].
      simpl. apply IH; [lia|simpl in Hi; lia|exact Hj|].
      intros k H1 H2. apply (Hk (S k)); lia.
Qed.

Lemma defaulted_fillna (v : fval) (s : Series) : defaulted v s (fillna v s).
Proof.
  split; [apply length_fillna|]. intros i Hi. now apply nth_fillna.
Qed.

Lemma carried_forward_ffill (s : Series) : carried_forward s (ffill s).
Proof.
  split; [apply length_ffill|]. intros i Hi. split.
  - intros Hk. now apply ffill_from_missing.
  - intros j Hji Hj Hk. now apply ffill_from_carry.
Qed.

Lemma Forall_last {A : Type} (P : A -> Prop) (l : list A) (d : A) :
  Forall P l -> l <> [] -> P (last l d).
Proof.
  induction l as [|x l IH]; intros HP Hne; [congruence|].
  inversion HP as [|? ? Hx Hl]; subst.
  destruct l as [|y l]; [exact Hx|].
  change (last (x :: y :: l) d) with (last (y :: l) d).
  apply IH; [assumption|discriminate].
Qed.

(** On a table whose two liquidity columns are fully defined and not
    empty, [filter_stocks] prints nothing. *)
Lemma filter_stocks_silent (df : DataFrame) (sa sv : Series) (mv mvol : Q) :
  getitem "AvgVolume" df = Ok (IsSeries sa) ->
  getitem "Volatility" df = Ok (IsSeries sv) ->
  all_valid sa -> all_valid sv -> sa <> [] -> sv <> [] ->
  trace (fst (filter_stocks df mv mvol)) = [].
Proof.
  intros Ha Hv Va Vv Na Nv.
  pose proof (Forall_last _ sa NaN Va Na) as La.
  pose proof (Forall_last _ sv NaN Vv Nv) as Lv.
  unfold filter_stocks, iloc_last_of, last_value. rewrite Ha, Hv.
  destruct sa as [|a0 sa]; [congruence|].
  destruct sv as [|v0 sv]; [congruence|].
  cbn [fst lift bind truth_isna ret]. cbv beta in La, Lv.
  rewrite La. cbn [bind ret app]. rewrite Lv. cbn [bind app].
  unfold and_then, truth_gt.
  destruct (last (a0 :: sa) NaN >? Fin mv)%F;
    [destruct (last (v0 :: sv) NaN >? Fin mvol)%F|]; reflexivity.
Qed.

(** ** Nothing escapes the handlers *)

Lemma calculate_indicators_total sqrt yf sym :
  exists t d, calculate_indicators sqrt yf sym = (t, Ok d).
Proof.
  unfold calculate_indicators. apply try_except_ok.
  intros e. now eexists _, _.
Qed.

Lemma filter_stocks_total df mv mvol :
  exists t b, filter_stocks df mv mvol = ((t, Ok b), df).
Proof.
  unfold filter_stocks.
  match goal with
  | |- context [try_except ?b ?h] =>
      destruct (try_except_ok b h) as (t & a & E)
  end.
  - intros e. now eexists _, _.
  - rewrite E. now exists t, a.
Qed.

Lemma evaluate_trading_signals_total df :
  exists t s df', evaluate_trading_signals df = ((t, Ok s), df').
Proof.
  unfold evaluate_trading_signals.
  destruct (first_of_all (columns df)) as [names|e].
  - match goal with
    | |- context [try_except ?b ?h] =>
        destruct (try_except_ok b h) as (t & a & E)
    end.
    + intros e. now eexists _, _.
    + rewrite E. now eexists _, _, _.
  - now eexists _, _, _.
Qed.

Lemma place_order_total positions broker sym a :
  exists t, place_order positions broker sym a = (t, Ok tt).
Proof.
  unfold place_order.
  match goal with
  | |- context [try_except ?b ?h] =>
      destruct (try_except_ok b h) as (t & [] & E)
  end.
  - intros e. now eexists _, _.
  - rewrite E. now exists t.
Qed.

Lemma signals_of_app (a b : list event) :
  signals_of (a ++ b) = signals_of a ++ signals_of b.
Proof.
  induction a as [|e a IH]; [reflexivity|].
  destruct e as [m| |]; [destruct m|..]; simpl; now rewrite ?IH.
Qed.

Lemma orders_of_app (a b : list event) :
  orders_of (a ++ b) = orders_of a ++ orders_of b.
Proof.
  induction a as [|e a IH]; [reflexivity|].
  destruct e; simpl; now rewrite ?IH.
Qed.

(** One pass of the loop leaves a trace that does not depend on the local
    variables it starts from, and always runs to its end. *)
Lemma loop_body_total sqrt yf positions broker sym :
  exists t, forall locals, exists locals',
    loop_body sqrt yf positions broker sym locals = (t, Ok locals').
Proof.
  unfold loop_body.
  destruct (calculate_indicators_total sqrt yf sym) as (t1 & d & E1).
  rewrite E1. destruct d as [df|].
  2:{ eexists. intros locals. eexists. reflexivity. }
  cbn [print emit bind].
  destruct (len df <? 10).
  { eexists. intros locals. eexists. reflexivity. }
  destruct (filter_stocks_total df 1000000 (2 # 100)) as (t2 & b & E2).
  rewrite E2. destruct b; cbn [negb bind].
  2:{ eexists. intros locals. eexists. reflexivity. }
  destruct (evaluate_trading_signals_total df) as (t3 & sig & df' & E3).
  rewrite E3. cbn [bind].
  destruct (String.eqb sig "BUY").
  { destruct (place_order_total positions broker sym "BUY") as (t4 & E4).
    cbn [print emit bind]. rewrite E4.
    eexists. intros locals. eexists. reflexivity. }
  destruct (String.eqb sig "SELL").
  { destruct (place_order_total positions broker sym "SELL") as (t4 & E4).
    cbn [print emit bind]. rewrite E4.
    eexists. intros locals. eexists. reflexivity. }
  eexists. intros locals. eexists. reflexivity.
Qed.

(** ** calculate_indicators *)

Section Indicators.

Variable sqrt : Q -> Q.
Variable yf_download : string -> result Download.
Variable stock_symbol : string.
Variable dl : Download.
Variable ib_positions : result (list Position).
Variable ib_placeOrder : string -> Order -> result string.
Hypothesis downloaded : yf_download stock_symbol = Ok dl.

Lemma calculate_indicators_short :
  List.length (bars dl) < 26 ->
  calculate_indicators sqrt yf_download stock_symbol =
  ([Printed (Insufficient_data stock_symbol)], Ok None).
Proof.
  intros Hlen. unfold calculate_indicators. rewrite downloaded.
  cbn [lift bind len nrows frame_of_download].
  apply Nat.ltb_lt in Hlen. rewrite Hlen, orb_true_r. reflexivity.
Qed.

Lemma calculate_indicators_long :
  26 <= List.length (bars dl) ->
  calculate_indicators sqrt yf_download stock_symbol =
  ([], Ok (Some (indicator_table sqrt stock_symbol dl))).
Proof.
  intros Hlen. unfold calculate_indicators.
  rewrite downloaded, bind_lift_ok.
  unfold indicator_table, frame_of_download.
  destruct dl as [multi bs]. cbn [bars multi_level_index] in *.
  generalize dependent (List.length bs). intros n Hlen.
  do 26 (destruct n as [|n]; [lia|]). clear Hlen.
  destruct multi; [destruct stock_symbol as [|a sym]|]; reflexivity.
Qed.

Lemma calculate_indicators_some (t : list event) (df : DataFrame) :
  calculate_indicators sqrt yf_download stock_symbol = (t, Ok (Some df)) ->
  26 <= List.length (bars dl) /\
  t = [] /\ df = indicator_table sqrt stock_symbol dl.
Proof.
  intros H.
  destruct (Nat.lt_ge_cases (List.length (bars dl)) 26) as [Hlt|Hge].
  - rewrite (calculate_indicators_short Hlt) in H. discriminate.
  - rewrite (calculate_indicators_long Hge) in H.
    injection H as <- <-. auto.
Qed.

Lemma table_fields :
  field "SMA" (indicator_table sqrt stock_symbol dl) = ffill (raw_sma dl) /\
  field "MACD" (indicator_table sqrt stock_symbol dl) =
    fillna (Fin 0) (raw_macd dl) /\
  field "Signal" (indicator_table sqrt stock_symbol dl) =
    fillna (Fin 0) (raw_signal dl) /\
  field "RSI" (indicator_table sqrt stock_symbol dl) =
    fillna (Fin 50) (raw_rsi dl) /\
  field "Volatility" (indicator_table sqrt stock_symbol dl) =
    fillna (Fin 0) (raw_volatility sqrt dl) /\
  field "AvgVolume" (indicator_table sqrt stock_symbol dl) =
    fillna (Fin 0) (raw_avg_volume dl).
Proof.
  unfold indicator_table. destruct (multi_level_index dl);
    repeat split; reflexivity.
Qed.

Lemma table_getitem :
  getitem "AvgVolume" (indicator_table sqrt stock_symbol dl) =
    Ok (IsSeries (fillna (Fin 0) (raw_avg_volume dl))) /\
  getitem "Volatility" (indicator_table sqrt stock_symbol dl) =
    Ok (IsSeries (fillna (Fin 0) (raw_volatility sqrt dl))).
Proof.
  unfold indicator_table. destruct (multi_level_index dl);
    split; reflexivity.
Qed.

Lemma table_lengths :
  Forall (fun c => List.length (snd c) = List.length (bars dl))
    (cols (indicator_table sqrt stock_symbol dl)).
Proof.
  unfold indicator_table. cbn [cols].
  repeat constructor; cbn [snd];
    rewrite ?length_ffill, ?length_fillna, ?length_rolling_mean,
      ?length_rolling_std, ?length_rsi_of, ?length_pct_change,
      ?length_ewm_mean, ?length_zip_with, ?length_ewm_mean, ?length_map;
    lia.
Qed.

(** C8.  In every table the engine returns, the SMA column is the
    computed SMA with each undefined entry replaced by the last defined
    one before it (undefined while there is none); MACD and Signal are
    the computed columns with undefined entries set to 0, RSI with
    undefined entries set to 50, Volatility and AvgVolume with undefined
    entries set to 0; and the table has one row per downloaded bar, in
    every column. *)
Theorem fallback_policy (t : list event) (df : DataFrame) :
  calculate_indicators sqrt yf_download stock_symbol = (t, Ok (Some df)) ->
  carried_forward (raw_sma dl) (field "SMA" df) /\
  defaulted (Fin 0) (raw_macd dl) (field "MACD" df) /\
  defaulted (Fin 0) (raw_signal dl) (field "Signal" df) /\
  defaulted (Fin 50) (raw_rsi dl) (field "RSI" df) /\
  defaulted (Fin 0) (raw_volatility sqrt dl) (field "Volatility" df) /\
  defaulted (Fin 0) (raw_avg_volume dl) (field "AvgVolume" df) /\
  nrows df = List.length (bars dl) /\
  Forall (fun c => List.length (snd c) = List.length (bars dl)) (cols df).
Proof.
  intros H. apply calculate_indicators_some in H as (_ & _ & ->).
  destruct table_fields as (-> & -> & -> & -> & -> & ->).
  split; [apply carried_forward_ffill|].
  do 5 (split; [apply defaulted_fillna|]).
  split; [reflexivity|apply table_lengths].
Qed.

(** C10.  In every table the engine returns, the AvgVolume and the
    Volatility column have no undefined entry, so [filter_stocks] on
    that table prints neither of its two reject messages, whatever the
    thresholds; the undefined-value message does appear on a table with
    an undefined latest AvgVolume, which the engine therefore never
    returns. *)
Theorem engine_tables_are_defined (t : list event) (df : DataFrame) :
  calculate_indicators sqrt yf_download stock_symbol = (t, Ok (Some df)) ->
  all_valid (field "AvgVolume" df) /\
  all_valid (field "Volatility" df) /\
  (forall mv mvol, trace (fst (filter_stocks df mv mvol)) = []) /\
  (forall mv mvol,
      trace (fst (filter_stocks table_with_gap mv mvol)) =
      [Printed (Skipping_invalid_volume_volatility
                  (Scalar NaN) (Scalar (Fin (3 # 100))))]) /\
  df <> table_with_gap.
Proof.
  intros H. apply calculate_indicators_some in H as (Hlen & _ & ->).
  destruct table_fields as (_ & _ & _ & _ & Hv & Ha).
  destruct table_getitem as (Ga & Gv).
  assert (Va : all_valid (fillna (Fin 0) (raw_avg_volume dl)))
    by now apply fillna_defined.
  assert (Vv : all_valid (fillna (Fin 0) (raw_volatility sqrt dl)))
    by now apply fillna_defined.
  rewrite Ha, Hv. repeat split; try assumption.
  - intros mv mvol.
    apply (filter_stocks_silent _ _ _ mv mvol Ga Gv Va Vv).
    + intros E. apply (f_equal (@List.length fval)) in E.
      unfold raw_avg_volume, volumes in E.
      rewrite length_fillna, length_rolling_mean, length_map in E.
      simpl in E. lia.
    + intros E. apply (f_equal (@List.length fval)) in E.
      unfold raw_volatility, closes in E.
      rewrite length_fillna, length_rolling_std, length_pct_change,
        length_map in E.
      simpl in E. lia.
  - intros E. apply (f_equal nrows) in E. simpl in E. lia.
Qed.

Lemma loop_body_short (locals : Locals) :
  List.length (bars dl) < 26 ->
  loop_body sqrt yf_download ib_positions ib_placeOrder stock_symbol locals =
  ([Printed (Processing stock_symbol);
    Printed (Insufficient_data stock_symbol);
    Printed (Skipping_symbol stock_symbol)],
   Ok (mkLocals None (signal_var locals))).
Proof.
  intros Hlen. unfold loop_body.
  rewrite (calculate_indicators_short Hlen). reflexivity.
Qed.

Lemma table_has_rsi :
  in_columns "RSI" (indicator_table sqrt stock_symbol dl) = true.
Proof.
  unfold indicator_table. now destruct (multi_level_index dl).
Qed.


(** C3.  With fewer than 26 bars (none included) the engine reports
    insufficient data and returns no table, and the scan skips the
    symbol: the pass of the loop prints the three skip lines and
    nothing else, so no filter verdict, no signal and no order. *)
Theorem insufficient_history_skips (locals : Locals) :
  List.length (bars dl) < 26 ->
  calculate_indicators sqrt yf_download stock_symbol =
    ([Printed (Insufficient_data stock_symbol)], Ok None) /\
  loop_body sqrt yf_download ib_positions ib_placeOrder stock_symbol locals =
    ([Printed (Processing stock_symbol);
      Printed (Insufficient_data stock_symbol);
      Printed (Skipping_symbol stock_symbol)],
     Ok (mkLocals None (signal_var locals))) /\
  signals_of
    (trace (loop_body sqrt yf_download ib_positions ib_placeOrder
              stock_symbol locals)) = [] /\
  orders_of
    (trace (loop_body sqrt yf_download ib_positions ib_placeOrder
              stock_symbol locals)) = [].
Proof.
  intros Hlen. rewrite (loop_body_short locals Hlen).
  repeat split. now apply calculate_indicators_short.
Qed.

(** C6, as the code has it.  With fewer than 14 bars the 26-bar floor
    applies first: the engine returns no table at all, its only report
    is the insufficient-data line for the symbol (none for RSI alone),
    and the scan skips the symbol without signal or order.  Whenever the
    engine does return a table, that table has an RSI column with every
    entry defined, and nothing was reported for RSI. *)
Theorem short_series_whole_rejection (locals : Locals) :
  (List.length (bars dl) < 14 ->
   calculate_indicators sqrt yf_download stock_symbol =
     ([Printed (Insufficient_data stock_symbol)], Ok None) /\
   signals_of
     (trace (loop_body sqrt yf_download ib_positions ib_placeOrder
               stock_symbol locals)) = [] /\
   orders_of
     (trace (loop_body sqrt yf_download ib_positions ib_placeOrder
               stock_symbol locals)) = []) /\
  (forall t df,
      calculate_indicators sqrt yf_download stock_symbol = (t, Ok (Some df)) ->
      in_columns "RSI" df = true /\
      all_valid (field "RSI" df) /\
      ~ In (Printed (Not_enough_data_for_RSI stock_symbol)) t).
Proof.
  split.
  - intros Hlen. assert (H26 : List.length (bars dl) < 26) by lia.
    rewrite (loop_body_short locals H26).
    repeat split. now apply calculate_indicators_short.
  - intros t df H. apply calculate_indicators_some in H as (_ & -> & ->).
    destruct table_fields as (_ & _ & _ & -> & _).
    repeat split.
    + apply table_has_rsi.
    + now apply fillna_defined.
    + intros [].
Qed.

End Indicators.

(** ** Running the pipeline twice *)

(** C5.  A pass of the loop over one symbol, run a second time from
    whatever the first pass left in the local variables, on the same
    download and the same positions, leaves the same trace: the same
    signal and the same order; the scan of a list naming the symbol twice
    leaves that trace twice. *)
Theorem pipeline_idempotent sqrt yf positions broker sym (locals : Locals) :
  exists t first second,
    loop_body sqrt yf positions broker sym locals = (t, Ok first) /\
    loop_body sqrt yf positions broker sym first = (t, Ok second) /\
    signals_of (trace (loop_body sqrt yf positions broker sym first)) =
    signals_of (trace (loop_body sqrt yf positions broker sym locals)) /\
    orders_of (trace (loop_body sqrt yf positions broker sym first)) =
    orders_of (trace (loop_body sqrt yf positions broker sym locals)) /\
    trace (for_each sqrt yf positions broker [sym; sym] locals) = t ++ t.
Proof.
  destruct (loop_body_total sqrt yf positions broker sym) as (t & Ht).
  destruct (Ht locals) as (first & H1).
  destruct (Ht first) as (second & H2).
  exists t, first, second.
  cbn [for_each]. rewrite H1. cbn [bind]. rewrite H2. cbn [bind ret trace fst].
  rewrite app_nil_r. repeat split.
Qed.

(** ** RSI *)

Lemma In_firstn {A : Type} (n : nat) (l : list A) (x : A) :
  In x (firstn n l) -> In x l.
Proof.
  revert l. induction n as [|n IH]; intros [|y l]; simpl; try tauto.
  intros [->|H]; [now left|right; now apply IH].
Qed.

Lemma In_skipn {A : Type} (n : nat) (l : list A) (x : A) :
  In x (skipn n l) -> In x l.
Proof.
  revert l. induction n as [|n IH]; intros [|y l]; simpl; try tauto.
  intros H. right. now apply IH.
Qed.

Lemma In_window (w i : nat) (s : Series) (x : fval) :
  In x (window w i s) -> In x s.
Proof. unfold window. intros H. eapply In_firstn, In_skipn, H. Qed.

Lemma In_observations (win : Series) (q : Q) :
  In q (observations win) -> In (Fin q) win.
Proof.
  induction win as [|x win IH]; simpl; [tauto|].
  destruct x as [p| | |]; simpl; intros H; try (right; now apply IH).
  destruct H as [->|H]; [now left|right; now apply IH].
Qed.

Lemma Qsum_nonneg (l : list Q) :
  (forall q, In q l -> (0 <= q)%Q) -> (0 <= Qsum l)%Q.
Proof.
  induction l as [|x l IH]; intros H; simpl.
  - apply Qle_refl.
  - assert (0 <= x)%Q by (apply H; now left).
    assert (0 <= Qsum l)%Q by (apply IH; intros q Hq; apply H; now right).
    lra.
Qed.

Lemma Qnat_pos (n : nat) : 0 < n -> (0 < Qnat n)%Q.
Proof.
  intros H. unfold Qnat, Qlt. simpl. lia.
Qed.

Lemma mean_of_nonneg (w : nat) (win : Series) :
  (forall q, In (Fin q) win -> (0 <= q)%Q) ->
  nonneg_or_nan (mean_of w win).
Proof.
  intros H. unfold mean_of.
  destruct ((w <=? _) && (0 <? _)) eqn:E; [|exact I].
  apply andb_true_iff in E as [_ E]. apply Nat.ltb_lt in E.
  unfold Float.fin, nonneg_or_nan. rewrite Qred_correct.
  apply Qle_shift_div_l; [now apply Qnat_pos|].
  rewrite Qmult_0_l. apply Qsum_nonneg.
  intros q Hq. apply H. now apply In_observations.
Qed.

Lemma rolling_mean_nonneg (w : nat) (s : Series) :
  (forall q, In (Fin q) s -> (0 <= q)%Q) ->
  Forall nonneg_or_nan (rolling_mean w s).
Proof.
  intros H. unfold rolling_mean. apply Forall_map, Forall_forall.
  intros i _. apply mean_of_nonneg.
  intros q Hq. apply H. eapply In_window, Hq.
Qed.

Lemma gain_nonneg (delta : Series) (q : Q) :
  In (Fin q) (gain_of delta) -> (0 <= q)%Q.
Proof.
  unfold gain_of, where_. rewrite in_map_iff. intros (x & Hx & _).
  destruct (x >? Fin 0)%F eqn:E.
  - subst x. unfold Float.gt in E. apply Qltb_true in E. now apply Qlt_le_weak.
  - injection Hx as <-. apply Qle_refl.
Qed.

Lemma loss_nonneg (delta : Series) (q : Q) :
  In (Fin q) (loss_of delta) -> (0 <= q)%Q.
Proof.
  unfold loss_of, where_. rewrite map_map, in_map_iff. intros (x & Hx & _).
  destruct (x <? Fin 0)%F eqn:E.
  - destruct x as [p| | |]; try discriminate.
    unfold Float.lt, Float.gt in E. apply Qltb_true in E.
    assert (Hq : Qred (- p) = q) by (injection Hx; auto).
    rewrite <- Hq, Qred_correct. lra.
  - assert (Hq : Qred (- 0) = q) by (injection Hx; auto).
    rewrite <- Hq, Qred_correct. lra.
Qed.

Lemma avg_gain_nonneg (close : Series) :
  Forall nonneg_or_nan (avg_gain_of close).
Proof. apply rolling_mean_nonneg, gain_nonneg. Qed.

Lemma avg_loss_nonneg (close : Series) :
  Forall nonneg_or_nan (avg_loss_of close).
Proof. apply rolling_mean_nonneg, loss_nonneg. Qed.

(** The boundary: no loss, some gain. *)
Lemma rsi_value_no_loss (g l : Q) :
  (0 < g)%Q -> (l == 0)%Q -> rsi_value (Fin g) (Fin l) = Fin 100.
Proof.
  intros Hg Hl. unfold rsi_value, Float.div, Float.Qeqb.
  rewrite (Qeq_eq_bool _ _ Hl). unfold Float.sgn.
  assert (E : (g ?= 0)%Q = Gt) by now apply Qgt_alt.
  rewrite E. reflexivity.
Qed.

Lemma rsi_value_range (a b : fval) :
  nonneg_or_nan a -> nonneg_or_nan b ->
  rsi_value a b = NaN \/ within 0 100 (rsi_value a b).
Proof.
  destruct a as [g| | |], b as [l| | |]; simpl; try tauto;
    intros Hg Hl; try (left; reflexivity).
  destruct (Qeq_bool l 0) eqn:El.
  - apply Qeq_bool_iff in El.
    destruct (Qlt_le_dec 0 g) as [Hpos|Hle].
    + right. rewrite (rsi_value_no_loss g l Hpos El). simpl. lra.
    + left. assert (Eg : (g == 0)%Q) by lra.
      unfold rsi_value, Float.div, Float.Qeqb.
      rewrite (Qeq_eq_bool _ _ El). unfold Float.sgn.
      assert (E : (g ?= 0)%Q = Eq) by now apply Qeq_alt.
      rewrite E. reflexivity.
  - right. apply Qeq_bool_neq in El.
    assert (Hl' : (0 < l)%Q) by lra.
    unfold rsi_value, Float.div, Float.Qeqb.
    destruct (Qeq_bool l 0) eqn:El'; [apply Qeq_bool_iff in El'; tauto|].
    set (r := (g / l)%Q).
    assert (Hr : (0 <= r)%Q).
    { unfold r. apply Qle_shift_div_l; [assumption|lra]. }
    cbn [Float.add Float.sub Float.neg Float.fin].
    unfold Float.fin.
    set (x := Qred (1 + Qred r)).
    assert (Hx : (1 <= x)%Q).
    { unfold x. rewrite !Qred_correct. lra. }
    destruct (Qeq_bool x 0) eqn:Ex; [apply Qeq_bool_iff in Ex; lra|].
    cbn [Float.add Float.neg]. unfold Float.fin, within.
    rewrite !Qred_correct.
    assert (Hy1 : (0 <= 100 / x)%Q).
    { apply Qle_shift_div_l; lra. }
    assert (Hy2 : (100 / x <= 100)%Q).
    { apply Qle_shift_div_r; lra. }
    lra.
Qed.

Lemma Forall_zip_with (P Q R : fval -> Prop) (f : fval -> fval -> fval)
  (a b : Series) :
  (forall x y, P x -> Q y -> R (f x y)) ->
  Forall P a -> Forall Q b -> Forall R (zip_with f a b).
Proof.
  intros Hf Ha. revert b. induction Ha as [|x a Hx Ha IH]; intros b Hb.
  - constructor.
  - destruct Hb as [|y b Hy Hb]; simpl; constructor; auto.
Qed.

Lemma nth_zip_with (f : fval -> fval -> fval) (a b : Series) (i : nat) :
  i < List.length a -> i < List.length b ->
  nth i (zip_with f a b) NaN = f (nth i a NaN) (nth i b NaN).
Proof.
  revert b i. induction a as [|x a IH]; intros [|y b] [|i]; simpl;
    intros Ha Hb; try lia; [reflexivity|].
  apply IH; lia.
Qed.

Lemma nth_defined_lt (s : Series) (i : nat) (q : Q) :
  nth i s NaN = Fin q -> i < List.length s.
Proof.
  intros H. destruct (Nat.lt_ge_cases i (List.length s)) as [Hlt|Hge];
    [assumption|].
  rewrite nth_overflow in H by assumption. discriminate.
Qed.

Lemma rsi_column_range (close : Series) :
  Forall (fun x => x = NaN \/ within 0 100 x) (rsi_of close).
Proof.
  unfold rsi_of.
  apply Forall_zip_with with (P := nonneg_or_nan) (Q := nonneg_or_nan).
  - apply rsi_value_range.
  - apply avg_gain_nonneg.
  - apply avg_loss_nonneg.
Qed.

(** C4.  Whatever the close series, every RSI value the engine computes
    is undefined or lies between 0 and 100; where the 14-period average
    loss is exactly 0 and the average gain is positive it is 100; and once
    the undefined entries are set to 50 the whole column lies between 0
    and 100. *)
Theorem rsi_in_range (close : Series) :
  Forall (fun x => x = NaN \/ within 0 100 x) (rsi_of close) /\
  (forall i g l,
      nth i (avg_gain_of close) NaN = Fin g ->
      nth i (avg_loss_of close) NaN = Fin l ->
      (0 < g)%Q -> (l == 0)%Q ->
      nth i (rsi_of close) NaN = Fin 100) /\
  Forall (within 0 100) (fillna (Fin 50) (rsi_of close)).
Proof.
  split; [apply rsi_column_range|]. split.
  - intros i g l Hg Hl Hpos Hzero. unfold rsi_of.
    rewrite nth_zip_with.
    + rewrite Hg, Hl. now apply rsi_value_no_loss.
    + eapply nth_defined_lt, Hg.
    + eapply nth_defined_lt, Hl.
  - unfold fillna. apply Forall_map.
    eapply Forall_impl; [|apply rsi_column_range].
    intros x [->|Hx]; simpl.
    + lra.
    + destruct x; simpl in *; try contradiction. exact Hx.
Qed.

(** ** Tables with plain labels *)

Lemma first_of_all_names (ls : list label) (names : list string) :
  forallb is_name ls = true ->
  first_of_all ls = Ok names ->
  Forall (fun s => String.length s = 1) names.
Proof.
  revert names. induction ls as [|l ls IH]; simpl; intros names Hn H.
  - injection H as <-. constructor.
  - apply andb_true_iff in Hn as [Hl Hls].
    destruct l as [[|c s]|s t]; try discriminate. simpl in H.
    destruct (first_of_all ls) as [ss|e]; [|discriminate].
    injection H as <-. constructor; [reflexivity|now apply IH].
Qed.

Lemma no_close_among_letters (names : list string) (df : DataFrame) :
  Forall (fun s => String.length s = 1) names ->
  in_columns "Close" (set_columns names df) = false.
Proof.
  unfold in_columns, columns, set_columns. cbn [cols].
  generalize (map snd (cols df)). intros vs H. revert vs.
  induction H as [|s names Hs _ IH]; intros [|v vs]; simpl; try reflexivity.
  rewrite IH, orb_false_r.
  destruct s as [|a [|b s]]; try discriminate.
  cbn. now destruct (Ascii.eqb a _).
Qed.

(** On a table with plain string labels line 107 keeps one letter of each
    label, the required columns are then missing, and the answer is
    HOLD whatever the values. *)
Lemma plain_labels_hold (df : DataFrame) :
  forallb is_name (columns df) = true ->
  outcome (fst (evaluate_trading_signals df)) = Ok "HOLD".
Proof.
  intros Hn. unfold evaluate_trading_signals.
  destruct (first_of_all (columns df)) as [names|e] eqn:E; [|reflexivity].
  cbn [fst]. rewrite outcome_try_print.
  unfold required_columns at 1. cbn [forallb].
  rewrite (no_close_among_letters names df
             (first_of_all_names _ _ Hn E)).
  reflexivity.
Qed.

(** The table an evaluation hands back carries plain labels, so a second
    evaluation of the same object answers HOLD. *)
Lemma second_evaluation_holds (df : DataFrame) :
  outcome
    (fst (evaluate_trading_signals (snd (evaluate_trading_signals df)))) =
  Ok "HOLD" \/
  snd (evaluate_trading_signals df) = df.
Proof.
  unfold evaluate_trading_signals at 2 3.
  destruct (first_of_all (columns df)) as [names|e] eqn:E; [left|now right].
  cbn [snd]. apply plain_labels_hold.
  unfold columns, set_columns. cbn [cols].
  generalize (map snd (cols df)). clear E.
  induction names as [|s names IH]; intros [|v vs]; simpl; auto.
Qed.

(** * Worked inputs *)

Lemma evaluate_small_table_twice :
  outcome (fst (evaluate_trading_signals small_table)) = Ok "BUY" /\
  outcome
    (fst (evaluate_trading_signals (snd (evaluate_trading_signals small_table)))) =
  Ok "HOLD".
Proof. split; reflexivity. Qed.

Lemma reconcile_long_and_flat :
  placed accept_order long_500 "AAPL" "SELL" =
    [("AAPL", MarketOrder "SELL" 500)] /\
  placed accept_order long_500 "AAPL" "BUY" = [] /\
  placed accept_order [] "AAPL" "BUY" = [("AAPL", MarketOrder "BUY" 10)] /\
  placed accept_order [] "AAPL" "SELL" = [].
Proof.
  pose proof (place_order_reconciliation accept_order long_500 "AAPL")
    as (Hbuy & _ & Hsell & _).
  pose proof (place_order_reconciliation accept_order [] "AAPL")
    as (_ & Hbuy0 & _ & Hsell0 & _).
  split; [apply Hsell; reflexivity|].
  split; [apply Hbuy; reflexivity|].
  split; [apply Hbuy0; discriminate|].
  apply Hsell0; discriminate.
Defined.

Lemma small_table_signal :
  exists signal,
    outcome (fst (evaluate_trading_signals small_table)) = Ok signal /\
    (signal = "BUY" <->
     buy_condition
       (mkFeatureRow (Fin 12) (Fin 11) (Fin 1) (Fin (1 # 2)) (Fin 60))) /\
    (signal = "SELL" <->
     sell_condition
       (mkFeatureRow (Fin 12) (Fin 11) (Fin 1) (Fin (1 # 2)) (Fin 60))) /\
    (signal = "HOLD" <->
     ~ buy_condition
         (mkFeatureRow (Fin 12) (Fin 11) (Fin 1) (Fin (1 # 2)) (Fin 60)) /\
     ~ sell_condition
         (mkFeatureRow (Fin 12) (Fin 11) (Fin 1) (Fin (1 # 2)) (Fin 60))).
Proof.
  exact (evaluate_trading_signals_rule small_table eq_refl).
Defined.

Lemma ten_weeks_skipped :
  calculate_indicators sqrt_approx (serve short_download) "AAPL" =
    ([Printed (Insufficient_data "AAPL")], Ok None) /\
  loop_body sqrt_approx (serve short_download) (Ok long_500) accept_order
    "AAPL" no_locals =
    ([Printed (Processing "AAPL"); Printed (Insufficient_data "AAPL");
      Printed (Skipping_symbol "AAPL")],
     Ok (mkLocals None None)) /\
  signals_of
    (trace (loop_body sqrt_approx (serve short_download) (Ok long_500)
              accept_order "AAPL" no_locals)) = [] /\
  orders_of
    (trace (loop_body sqrt_approx (serve short_download) (Ok long_500)
              accept_order "AAPL" no_locals)) = [].
Proof.
  apply (insufficient_history_skips sqrt_approx (serve short_download) "AAPL"
           short_download (Ok long_500) accept_order eq_refl no_locals).
  vm_compute. lia.
Defined.

Lemma rising_closes_rsi :
  nth 14 (rsi_of rising) NaN = Fin 100.
Proof.
  apply (proj1 (proj2 (rsi_in_range rising)) 14%nat 1%Q 0%Q).
  - vm_compute. reflexivity.
  - vm_compute. reflexivity.
  - reflexivity.
  - reflexivity.
Defined.

(** Ten bars: a moving average over them and the MACD recursion are
    computable, and still no table comes back. *)
Lemma ten_weeks_no_partial_table :
  List.length (bars short_download) < 14 /\
  ~ partial_table_returned sqrt_approx (serve short_download) "AAPL".
Proof.
  split; [vm_compute; lia|].
  intros (t & df & H & _). vm_compute in H. discriminate.
Qed.

Lemma ten_weeks_whole_rejection :
  calculate_indicators sqrt_approx (serve short_download) "AAPL" =
    ([Printed (Insufficient_data "AAPL")], Ok None) /\
  signals_of
    (trace (loop_body sqrt_approx (serve short_download) (Ok long_500)
              accept_order "AAPL" no_locals)) = [] /\
  orders_of
    (trace (loop_body sqrt_approx (serve short_download) (Ok long_500)
              accept_order "AAPL" no_locals)) = [].
Proof.
  apply (proj1 (short_series_whole_rejection sqrt_approx
                  (serve short_download) "AAPL" short_download
                  (Ok long_500) accept_order eq_refl no_locals)).
  vm_compute. lia.
Defined.

Lemma thirty_weeks_table :
  calculate_indicators sqrt_approx (serve long_download) "AAPL" =
  ([], Ok (Some (indicator_table sqrt_approx "AAPL" long_download))).
Proof. apply calculate_indicators_long; [reflexivity|vm_compute; lia]. Qed.

Lemma thirty_weeks_fallbacks :
  let df := indicator_table sqrt_approx "AAPL" long_download in
  carried_forward (raw_sma long_download) (field "SMA" df) /\
  defaulted (Fin 0) (raw_macd long_download) (field "MACD" df) /\
  defaulted (Fin 0) (raw_signal long_download) (field "Signal" df) /\
  defaulted (Fin 50) (raw_rsi long_download) (field "RSI" df) /\
  defaulted (Fin 0) (raw_volatility sqrt_approx long_download)
    (field "Volatility" df) /\
  defaulted (Fin 0) (raw_avg_volume long_download) (field "AvgVolume" df) /\
  nrows df = 30 /\
  Forall (fun c => List.length (snd c) = 30) (cols df).
Proof.
  exact (fallback_policy sqrt_approx (serve long_download) "AAPL"
           long_download eq_refl [] _ thirty_weeks_table).
Defined.

Lemma thirty_weeks_defined :
  let df := indicator_table sqrt_approx "AAPL" long_download in
  all_valid (field "AvgVolume" df) /\
  all_valid (field "Volatility" df) /\
  (forall mv mvol, trace (fst (filter_stocks df mv mvol)) = []) /\
  (forall mv mvol,
      trace (fst (filter_stocks table_with_gap mv mvol)) =
      [Printed (Skipping_invalid_volume_volatility
                  (Scalar NaN) (Scalar (Fin (3 # 100))))]) /\
  df <> table_with_gap.
Proof.
  exact (engine_tables_are_defined sqrt_approx (serve long_download) "AAPL"
           long_download eq_refl [] _ thirty_weeks_table).
Defined.

(** Thirty jumpy weeks, flat account: the table passes the filter, the
    signal is BUY and a BUY of 10 shares goes to the broker. *)
Lemma thirty_weeks_buy :
  trace (loop_body sqrt_approx (serve long_download) (Ok []) accept_order
           "AAPL" no_locals) =
  [ Printed (Processing "AAPL");
    Printed (Columns_in_data
               [Name "Close"; Name "High"; Name "Low"; Name "Open";
                Name "Volume"; Name "SMA"; Name "EMA12"; Name "EMA26";
                Name "MACD"; Name "Signal"; Name "RSI"; Name "Volatility";
                Name "AvgVolume"]);
    Printed (Signal_is "AAPL" "BUY");
    Printed (Bullish_signal "AAPL");
    PlaceOrder "AAPL" (MarketOrder "BUY" 10);
    Printed (Order_placed "BUY" "AAPL" "Submitted");
    Sleep 2 ].
Proof. vm_compute. reflexivity. Qed.

(** * The rest of the script: properties *)

(** ** Market hours *)

(** X1.  For a time of day the clock can show, [is_market_open] holds
    exactly from 09:30:00.000000 to 16:00:00.000000, both ends included,
    counted in microseconds since midnight. *)
Theorem is_market_open_hours (t : Time) :
  valid_time t ->
  (is_market_open t = true <->
   (34200000000 <= micros_of t <= 57600000000)%Z).
Proof.
  unfold valid_time, is_market_open, time_le, dt_time, micros_of.
  destruct t as [h m s u]. cbn [hour minute second microsecond].
  intros (Hh & Hm & Hs & Hu).
  repeat match goal with
         | |- context [(?a <? ?b)%Z] => destruct (Z.ltb_spec a b)
         | |- context [(?a <=? ?b)%Z] => destruct (Z.leb_spec a b)
         end;
    cbn [andb]; split; intros; try discriminate; try reflexivity; lia.
Qed.

(** ** The scan as a sequence of passes *)

Lemma loop_body_pass sqrt yf positions ib sym (locals : Locals) :
  exists locals',
    loop_body sqrt yf positions ib sym locals =
    (pass sqrt yf positions ib sym, Ok locals').
Proof.
  destruct (loop_body_total sqrt yf positions ib sym) as (t & Ht).
  unfold pass. destruct (Ht no_locals) as (l0 & ->).
  destruct (Ht locals) as (l1 & ->). now exists l1.
Qed.

Lemma for_each_passes sqrt yf positions ib (syms : list string) :
  forall locals, exists locals',
    for_each sqrt yf positions ib syms locals =
    (List.concat (map (pass sqrt yf positions ib) syms), Ok locals').
Proof.
  induction syms as [|sym syms IH]; intros locals.
  - now exists locals.
  - cbn [for_each map List.concat].
    destruct (loop_body_pass sqrt yf positions ib sym locals) as (l1 & ->).
    destruct (IH l1) as (l2 & E). cbn [bind]. rewrite E. now exists l2.
Qed.

Lemma monitor_and_trade_ok sqrt yf positions ib (syms : list string) :
  monitor_and_trade sqrt yf (Ok syms) positions ib =
  (Printed Monitoring :: List.concat (map (pass sqrt yf positions ib) syms), Ok tt).
Proof.
  unfold monitor_and_trade. rewrite bind_lift_ok.
  unfold print, emit. cbn [bind].
  destruct (for_each_passes sqrt yf positions ib syms no_locals) as (l & ->).
  cbn [bind ret app]. now rewrite app_nil_r.
Qed.

(** X2.  Once the membership list is fetched the scan never raises, and
    its trace is the opening line followed by the traces of the passes
    over the symbols, each as if run alone; when the list cannot be
    fetched the scan raises that exception and leaves no trace. *)
Theorem scan_is_a_sequence_of_passes sqrt yf positions ib :
  (forall syms,
      monitor_and_trade sqrt yf (Ok syms) positions ib =
      (Printed Monitoring :: List.concat (map (pass sqrt yf positions ib) syms),
       Ok tt)) /\
  (forall e,
      monitor_and_trade sqrt yf (Raise e) positions ib = ([], Raise e)).
Proof.
  split; [apply monitor_and_trade_ok|reflexivity].
Qed.

Lemma pass_download_raises sqrt yf positions ib sym e :
  yf sym = Raise e ->
  pass sqrt yf positions ib sym =
  [Printed (Processing sym);
   Printed (Error_calculating_indicators sym e);
   Printed (Skipping_symbol sym)].
Proof.
  intros H. unfold pass, loop_body, calculate_indicators. rewrite H.
  reflexivity.
Qed.

(** X3.  A symbol whose download raises costs three lines and nothing
    else: the scan goes on with the symbols after it exactly as it would
    without the failure. *)
Theorem failed_download_is_isolated sqrt yf positions ib sym e
  (before after : list string) :
  yf sym = Raise e ->
  monitor_and_trade sqrt yf (Ok (before ++ sym :: after)) positions ib =
  (Printed Monitoring ::
   List.concat (map (pass sqrt yf positions ib) before) ++
   [Printed (Processing sym);
    Printed (Error_calculating_indicators sym e);
    Printed (Skipping_symbol sym)] ++
   List.concat (map (pass sqrt yf positions ib) after),
   Ok tt).
Proof.
  intros H. rewrite monitor_and_trade_ok, map_app, concat_app.
  cbn [map List.concat]. now rewrite (pass_download_raises _ _ _ _ _ _ H).
Qed.

(** ** What calculate_indicators reports *)

(** X4.  [calculate_indicators] never raises.  It returns a table exactly
    when the download succeeds with at least 26 bars, and then prints
    nothing; a failed download gives None and the error line, a shorter
    download None and the insufficient-data line.  The lines for a MACD
    or RSI shortage and for missing columns are never printed. *)
Theorem calculate_indicators_reports sqrt yf sym :
  calculate_indicators sqrt yf sym =
  match yf sym with
  | Raise e => ([Printed (Error_calculating_indicators sym e)], Ok None)
  | Ok dl =>
      if List.length (bars dl) <? 26
      then ([Printed (Insufficient_data sym)], Ok None)
      else ([], Ok (Some (indicator_table sqrt sym dl)))
  end.
Proof.
  destruct (yf sym) as [dl|e] eqn:E.
  - destruct (Nat.ltb_spec (List.length (bars dl)) 26) as [Hlt|Hge].
    + now apply calculate_indicators_short with (dl := dl).
    + now apply calculate_indicators_long.
  - unfold calculate_indicators. now rewrite E.
Qed.

(** ** place_order when something fails *)

(** X5.  [place_order] never raises.  When the positions cannot be read,
    or the action is neither BUY nor SELL, it prints one error line and
    hands no order to the broker; when the broker raises on the order,
    the order has been handed over and the error line follows. *)
Theorem place_order_failures ib sym action :
  (forall e,
      place_order (Raise e) ib sym action =
      ([Printed (Error_placing_order action sym e)], Ok tt)) /\
  (forall positions,
      action <> "BUY" -> action <> "SELL" ->
      place_order (Ok positions) ib sym action =
      ([Printed (Error_placing_order action sym UnboundLocalError)], Ok tt)) /\
  (forall positions t,
      place_order (Ok positions) ib sym action = (t, Ok tt) ->
      forall o e,
        In (PlaceOrder sym o) t -> ib sym o = Raise e ->
        t = [PlaceOrder sym o; Printed (Error_placing_order action sym e)]).
Proof.
  split; [reflexivity|]. split.
  - intros positions Hb Hs. unfold place_order.
    apply String.eqb_neq in Hb, Hs. cbn [lift bind]. now rewrite Hb, Hs.
  - intros positions t. unfold place_order. cbn [lift bind].
    destruct (String.eqb action "BUY").
    + destruct (Float.Qltb 0 _); cbn.
      * intros [= <-] o e [H|[]]. discriminate.
      * destruct (ib sym _) as [st|e'] eqn:Ei; cbn;
          intros [= <-] o e [[= <-]|[H|H]] Ho; try discriminate;
          try contradiction; congruence.
    + destruct (String.eqb action "SELL").
      * destruct (Qle_bool _ 0); cbn.
        -- intros [= <-] o e [H|[]]. discriminate.
        -- destruct (ib sym _) as [st|e'] eqn:Ei; cbn;
             intros [= <-] o e [[= <-]|[H|H]] Ho; try discriminate;
             try contradiction; congruence.
      * cbn. intros [= <-] o e [H|[]]. discriminate.
Qed.

(** ** One pass, step by step *)

(** The trace of a pass, assembled from the traces and answers of the
    functions it calls. *)
Lemma pass_shape sqrt yf positions ib sym :
  pass sqrt yf positions ib sym =
  Printed (Processing sym) ::
  trace (calculate_indicators sqrt yf sym) ++
  match outcome (calculate_indicators sqrt yf sym) with
  | Ok (Some df) =>
      if len df <? 10 then [Printed (Skipping_symbol sym)]
      else
        trace (fst (filter_stocks df 1000000 (2 # 100))) ++
        match outcome (fst (filter_stocks df 1000000 (2 # 100))) with
        | Ok true =>
            trace (fst (evaluate_trading_signals df)) ++
            match outcome (fst (evaluate_trading_signals df)) with
            | Ok signal =>
                Printed (Signal_is sym signal) ::
                (if String.eqb signal "BUY" then
                   Printed (Bullish_signal sym) ::
                   trace (place_order positions ib sym "BUY")
                 else if String.eqb signal "SELL" then
                   Printed (Bearish_signal sym) ::
                   trace (place_order positions ib sym "SELL")
                 else []) ++ [Sleep 2]
            | Raise _ => []
            end
        | Ok false => [Printed (Does_not_meet_criteria sym)]
        | Raise _ => []
        end
  | Ok None => [Printed (Skipping_symbol sym)]
  | Raise _ => []
  end.
Proof.
  unfold pass, loop_body.
  destruct (calculate_indicators sqrt yf sym) as [t1 [[df|]|e]];
    cbn [print emit bind trace outcome fst snd app ret]; try reflexivity.
  2:{ now rewrite app_nil_r. }
  destruct (len df <? 10); [reflexivity|].
  destruct (filter_stocks_total df 1000000 (2 # 100)) as (t2 & b & ->).
  destruct b; cbn [print emit bind trace outcome fst snd app ret negb].
  2:{ reflexivity. }
  destruct (evaluate_trading_signals_total df) as (t3 & sig & df3 & ->).
  cbn [print emit bind trace outcome fst snd app ret].
  destruct (place_order_total positions ib sym "BUY") as (tb & ->).
  destruct (place_order_total positions ib sym "SELL") as (ts & ->).
  destruct (String.eqb sig "BUY"); [|destruct (String.eqb sig "SELL")];
    cbn [print emit bind trace outcome fst snd app ret];
    rewrite ?app_nil_r; reflexivity.
Qed.

(** ** Which events a function can leave *)

Lemma diagnostic_orders (t : list event) :
  forallb is_diagnostic t = true -> orders_of t = [].
Proof.
  induction t as [|e t IH]; [reflexivity|]. cbn [forallb].
  intros H. apply andb_true_iff in H as [He Ht].
  destruct e as [m| |]; try discriminate. cbn. now apply IH.
Qed.

Lemma diagnostic_signals (t : list event) :
  forallb is_diagnostic t = true -> signals_of t = [].
Proof.
  induction t as [|e t IH]; [reflexivity|]. cbn [forallb].
  intros H. apply andb_true_iff in H as [He Ht].
  destruct e as [m| |]; try discriminate.
  destruct m; try discriminate; cbn; now apply IH.
Qed.

Lemma calculate_indicators_diagnostic sqrt yf sym :
  forallb is_diagnostic (trace (calculate_indicators sqrt yf sym)) = true.
Proof.
  destruct (yf sym) as [dl|e] eqn:E.
  - destruct (Nat.lt_ge_cases (List.length (bars dl)) 26) as [Hlt|Hge].
    + now rewrite (calculate_indicators_short sqrt yf sym dl E Hlt).
    + now rewrite (calculate_indicators_long sqrt yf sym dl E Hge).
  - unfold calculate_indicators. now rewrite E.
Qed.

Lemma filter_stocks_diagnostic df mv mvol :
  forallb is_diagnostic (trace (fst (filter_stocks df mv mvol))) = true.
Proof.
  unfold filter_stocks, iloc_last_of, last_value, and_then, truth_isna,
    truth_gt.
  destruct (getitem "AvgVolume" df) as [[[|a0 sa]|suba]|ea];
    try reflexivity.
  - set (a := last (a0 :: sa) NaN).
    destruct (getitem "Volatility" df) as [[[|v0 sv]|subv]|ev];
      try reflexivity.
    + set (v := last (v0 :: sv) NaN).
      simpl. destruct (Float.isna a); simpl; [reflexivity|].
      destruct (Float.isna v); simpl; [reflexivity|].
      destruct (Float.gt a _); simpl; reflexivity.
    + destruct (nrows df =? 0); simpl; [reflexivity|].
      destruct (Float.isna a); reflexivity.
  - destruct (nrows df =? 0); simpl; [reflexivity|].
    destruct (getitem "Volatility" df) as [[[|v0 sv]|subv]|ev];
      reflexivity.
Qed.

Lemma decide_latest_silent (latest : list (label * fval)) :
  trace (decide_latest latest) = [].
Proof.
  unfold decide_latest, and_then, row_gt, row_lt, row_gt_const,
    row_lt_const, truth_gt, truth_lt.
  destruct (row_get "Close" latest) as [[c|]|e1]; try reflexivity;
  destruct (row_get "SMA" latest) as [[s|]|e2]; try reflexivity.
  destruct (row_get "MACD" latest) as [[m|]|e3];
  destruct (row_get "Signal" latest) as [[g|]|e4];
  destruct (row_get "RSI" latest) as [[x|]|e5];
    repeat (cbn;
            match goal with
            | |- context [Float.gt ?a ?b] => destruct (Float.gt a b)
            | |- context [Float.lt ?a ?b] => destruct (Float.lt a b)
            end);
    reflexivity.
Qed.

Lemma evaluate_trading_signals_diagnostic df :
  forallb is_diagnostic (trace (fst (evaluate_trading_signals df))) = true.
Proof.
  unfold evaluate_trading_signals.
  destruct (first_of_all (columns df)) as [names|e]; [|reflexivity].
  cbn [fst]. set (flat := set_columns names df).
  destruct (forallb (fun col => in_columns col flat) required_columns);
    cbn [negb]; [|reflexivity].
  destruct (empty (dropna required_columns flat)); [reflexivity|].
  destruct (iloc_last (dropna required_columns flat)) as [latest|e];
    [|reflexivity].
  rewrite bind_lift_ok.
  pose proof (decide_latest_silent latest) as H.
  destruct (decide_latest latest) as [t [s|e]]; cbn in H; subst t;
    reflexivity.
Qed.

Lemma place_order_no_signal positions ib sym action :
  signals_of (trace (place_order positions ib sym action)) = [].
Proof.
  unfold place_order. destruct positions as [ps|e]; [|reflexivity].
  cbn [lift bind].
  destruct (String.eqb action "BUY");
    [ destruct (Float.Qltb 0 _)
    | destruct (String.eqb action "SELL"); [destruct (Qle_bool _ 0)|] ];
    cbn; try destruct (ib _ _); reflexivity.
Qed.

(** ** Orders and signals of one pass *)

Lemma pass_orders_eq sqrt yf positions ib sym :
  orders_of (pass sqrt yf positions ib sym) =
  match outcome (calculate_indicators sqrt yf sym) with
  | Ok (Some df) =>
      if len df <? 10 then []
      else
        match outcome (fst (filter_stocks df 1000000 (2 # 100))) with
        | Ok true =>
            match outcome (fst (evaluate_trading_signals df)) with
            | Ok signal =>
                if String.eqb signal "BUY" then
                  orders_of (trace (place_order positions ib sym "BUY"))
                else if String.eqb signal "SELL" then
                  orders_of (trace (place_order positions ib sym "SELL"))
                else []
            | Raise _ => []
            end
        | _ => []
        end
  | _ => []
  end.
Proof.
  rewrite pass_shape. cbn [orders_of].
  rewrite orders_of_app,
    (diagnostic_orders _ (calculate_indicators_diagnostic sqrt yf sym)).
  cbn [app].
  destruct (outcome (calculate_indicators sqrt yf sym)) as [[df|]|e];
    try reflexivity.
  destruct (len df <? 10); [reflexivity|].
  rewrite orders_of_app,
    (diagnostic_orders _ (filter_stocks_diagnostic df _ _)).
  cbn [app].
  destruct (outcome (fst (filter_stocks df 1000000 (2 # 100))))
    as [[|]|e]; try reflexivity.
  rewrite orders_of_app,
    (diagnostic_orders _ (evaluate_trading_signals_diagnostic df)).
  cbn [app].
  destruct (outcome (fst (evaluate_trading_signals df))) as [sig|e];
    [|reflexivity].
  cbn [orders_of]. rewrite orders_of_app. cbn [orders_of].
  rewrite app_nil_r.
  destruct (String.eqb sig "BUY"); [reflexivity|].
  destruct (String.eqb sig "SELL"); reflexivity.
Qed.

Lemma pass_signals_eq sqrt yf positions ib sym :
  signals_of (pass sqrt yf positions ib sym) =
  match outcome (calculate_indicators sqrt yf sym) with
  | Ok (Some df) =>
      if len df <? 10 then []
      else
        match outcome (fst (filter_stocks df 1000000 (2 # 100))) with
        | Ok true =>
            match outcome (fst (evaluate_trading_signals df)) with
            | Ok signal => [(sym, signal)]
            | Raise _ => []
            end
        | _ => []
        end
  | _ => []
  end.
Proof.
  rewrite pass_shape. cbn [signals_of].
  rewrite signals_of_app,
    (diagnostic_signals _ (calculate_indicators_diagnostic sqrt yf sym)).
  cbn [app].
  destruct (outcome (calculate_indicators sqrt yf sym)) as [[df|]|e];
    try reflexivity.
  destruct (len df <? 10); [reflexivity|].
  rewrite signals_of_app,
    (diagnostic_signals _ (filter_stocks_diagnostic df _ _)).
  cbn [app].
  destruct (outcome (fst (filter_stocks df 1000000 (2 # 100))))
    as [[|]|e]; try reflexivity.
  rewrite signals_of_app,
    (diagnostic_signals _ (evaluate_trading_signals_diagnostic df)).
  cbn [app].
  destruct (outcome (fst (evaluate_trading_signals df))) as [sig|e];
    [|reflexivity].
  cbn [signals_of]. rewrite signals_of_app. cbn [signals_of].
  rewrite app_nil_r. f_equal.
  destruct (String.eqb sig "BUY"); [|destruct (String.eqb sig "SELL")];
    cbn [signals_of]; try reflexivity; apply place_order_no_signal.
Qed.

(** The orders of [place_order] for BUY and for SELL, whatever the
    session answers. *)
Lemma place_order_sound ib_positions ib sym a o :
  a = "BUY" \/ a = "SELL" ->
  In o (orders_of (trace (place_order ib_positions ib sym a))) ->
  exists positions,
    ib_positions = Ok positions /\
    action (snd o) = a /\
    sound_order sym (current_position_of positions sym) o.
Proof.
  intros Ha Hin. destruct ib_positions as [ps|e]; [|destruct Hin].
  exists ps. split; [reflexivity|].
  change (In o (placed ib ps sym a)) in Hin.
  destruct Ha as [-> | ->].
  - rewrite placed_buy in Hin.
    destruct (Float.Qltb 0 _) eqn:E; [destruct Hin|].
    destruct Hin as [<-|[]]. apply Qltb_false in E.
    split; [reflexivity|]. split; [reflexivity|]. left. now split.
  - rewrite placed_sell in Hin.
    destruct (Qle_bool _ 0) eqn:E; [destruct Hin|].
    destruct Hin as [<-|[]]. apply Qle_bool_false in E.
    split; [reflexivity|]. split; [reflexivity|]. right. now split.
Qed.

Lemma place_order_at_most_one ib_positions ib sym a :
  a = "BUY" \/ a = "SELL" ->
  List.length (orders_of (trace (place_order ib_positions ib sym a))) <= 1.
Proof.
  intros Ha. destruct ib_positions as [ps|e]; [|cbn; lia].
  change (List.length (placed ib ps sym a) <= 1).
  destruct Ha as [-> | ->].
  - rewrite placed_buy. destruct (Float.Qltb 0 _); cbn; lia.
  - rewrite placed_sell. destruct (Qle_bool _ 0); cbn; lia.
Qed.

Lemma pass_orders_sound sqrt yf ib_positions ib sym o :
  In o (orders_of (pass sqrt yf ib_positions ib sym)) ->
  exists df positions,
    outcome (calculate_indicators sqrt yf sym) = Ok (Some df) /\
    outcome (fst (filter_stocks df 1000000 (2 # 100))) = Ok true /\
    outcome (fst (evaluate_trading_signals df)) = Ok (action (snd o)) /\
    ib_positions = Ok positions /\
    sound_order sym (current_position_of positions sym) o.
Proof.
  rewrite pass_orders_eq.
  destruct (outcome (calculate_indicators sqrt yf sym)) as [[df|]|e];
    try contradiction.
  destruct (len df <? 10); [contradiction|].
  destruct (outcome (fst (filter_stocks df 1000000 (2 # 100))))
    as [[|]|e] eqn:Hf; try contradiction.
  destruct (outcome (fst (evaluate_trading_signals df))) as [sig|e] eqn:He;
    [|contradiction].
  destruct (String.eqb_spec sig "BUY") as [->|Hb].
  - intros Hin.
    destruct (place_order_sound _ _ _ "BUY" o (or_introl eq_refl) Hin)
      as (ps & -> & Ha & Hs).
    exists df, ps. rewrite Ha. auto.
  - destruct (String.eqb_spec sig "SELL") as [->|Hs]; [|contradiction].
    intros Hin.
    destruct (place_order_sound _ _ _ "SELL" o (or_intror eq_refl) Hin)
      as (ps & -> & Ha & Hs).
    exists df, ps. rewrite Ha. auto.
Qed.

Lemma pass_orders_at_most_one sqrt yf ib_positions ib sym :
  List.length (orders_of (pass sqrt yf ib_positions ib sym)) <= 1.
Proof.
  rewrite pass_orders_eq.
  destruct (outcome (calculate_indicators sqrt yf sym)) as [[df|]|e];
    cbn [List.length]; try lia.
  destruct (len df <? 10); cbn [List.length]; try lia.
  destruct (outcome (fst (filter_stocks df 1000000 (2 # 100))))
    as [[|]|e]; cbn [List.length]; try lia.
  destruct (outcome (fst (evaluate_trading_signals df))) as [sig|e];
    cbn [List.length]; try lia.
  destruct (String.eqb sig "BUY");
    [apply place_order_at_most_one; now left|].
  destruct (String.eqb sig "SELL");
    [apply place_order_at_most_one; now right|cbn; lia].
Qed.

(** X6.  A pass hands an order to the broker only when the engine
    returned a table, the filter passed it with the default thresholds
    and the evaluator answered BUY or SELL; the order then carries that
    answer as its action, is for the symbol of the pass, and is a BUY of
    10 shares on a position that is not positive or a SELL of the whole
    positive position; and the pass reports that answer as its signal. *)
Theorem order_needs_filter_and_signal sqrt yf ib_positions ib sym o :
  In o (orders_of (pass sqrt yf ib_positions ib sym)) ->
  exists df positions,
    outcome (calculate_indicators sqrt yf sym) = Ok (Some df) /\
    outcome (fst (filter_stocks df 1000000 (2 # 100))) = Ok true /\
    outcome (fst (evaluate_trading_signals df)) = Ok (action (snd o)) /\
    ib_positions = Ok positions /\
    sound_order sym (current_position_of positions sym) o /\
    signals_of (pass sqrt yf ib_positions ib sym) = [(sym, action (snd o))].
Proof.
  intros Hin.
  destruct (pass_orders_sound _ _ _ _ _ _ Hin)
    as (df & ps & Hc & Hf & He & Hp & Hs).
  exists df, ps. repeat (split; [assumption|]).
  rewrite pass_signals_eq, Hc.
  destruct (len df <? 10) eqn:Hl.
  - rewrite pass_orders_eq, Hc, Hl in Hin. contradiction.
  - now rewrite Hf, He.
Qed.

Lemma scan_orders sqrt yf ib_positions ib (syms : list string) :
  (forall o,
      In o (orders_of
              (List.concat (map (pass sqrt yf ib_positions ib) syms))) ->
      In (fst o) syms /\
      exists positions,
        ib_positions = Ok positions /\
        sound_order (fst o) (current_position_of positions (fst o)) o) /\
  List.length
    (orders_of (List.concat (map (pass sqrt yf ib_positions ib) syms)))
  <= List.length syms.
Proof.
  induction syms as [|sym syms [IH1 IH2]]; cbn [map List.concat].
  - split; [intros o []|cbn; lia].
  - rewrite orders_of_app. split.
    + intros o Hin. apply in_app_or in Hin as [Hin|Hin].
      * destruct (pass_orders_sound _ _ _ _ _ _ Hin)
          as (df & ps & _ & _ & _ & Hp & Hs).
        assert (Hsym : fst o = sym) by apply Hs.
        rewrite Hsym. split; [now left|]. now exists ps.
      * destruct (IH1 o Hin) as [H1 H2]. split; [now right|exact H2].
    + rewrite length_app. cbn [List.length].
      pose proof (pass_orders_at_most_one sqrt yf ib_positions ib sym).
      lia.
Qed.

(** X7.  In a scan every order handed to the broker is for a symbol of
    the membership list and is a BUY of 10 shares on a position that is
    not positive or a SELL of the whole positive position, as read from
    the account; and a scan places at most one order per listed symbol. *)
Theorem scan_orders_are_sound sqrt yf ib_positions ib (syms : list string) :
  (forall o,
      In o (orders_of
              (trace (monitor_and_trade sqrt yf (Ok syms) ib_positions ib))) ->
      In (fst o) syms /\
      exists positions,
        ib_positions = Ok positions /\
        sound_order (fst o) (current_position_of positions (fst o)) o) /\
  List.length
    (orders_of (trace (monitor_and_trade sqrt yf (Ok syms) ib_positions ib)))
  <= List.length syms.
Proof.
  rewrite monitor_and_trade_ok. cbn [trace fst orders_of].
  apply scan_orders.
Qed.

(** ** What the evaluator can answer *)

Lemma decide_latest_earns (latest : list (label * fval)) (s : string) :
  outcome (decide_latest latest) = Ok s ->
  s = "HOLD" \/
  exists r,
    reads latest r /\
    ((s = "BUY" /\ buy_condition r) \/ (s = "SELL" /\ sell_condition r)).
Proof.
  unfold decide_latest, and_then, row_gt, row_lt, row_gt_const,
    row_lt_const, truth_gt, truth_lt, reads, buy_condition, sell_condition.
  destruct (row_get "Close" latest) as [[c|]|e1]; try discriminate;
  destruct (row_get "SMA" latest) as [[sm|]|e2]; try discriminate.
  cbn. destruct (Float.gt c sm) eqn:G1; cbn.
  - destruct (row_get "MACD" latest) as [[m|]|e3]; try discriminate;
    destruct (row_get "Signal" latest) as [[g|]|e4]; try discriminate.
    cbn. destruct (Float.gt m g) eqn:G2; cbn.
    + destruct (row_get "RSI" latest) as [[x|]|e5]; try discriminate.
      cbn. destruct (Float.gt x (Fin 50)) eqn:G3; cbn.
      * intros [= <-]. right. exists (mkFeatureRow c sm m g x).
        cbn. split; [tauto|]. left. tauto.
      * destruct (Float.lt c sm) eqn:L1; cbn.
        -- exfalso. exact (gt_lt_exclusive _ _ G1 L1).
        -- intros [= <-]. now left.
    + destruct (Float.lt c sm) eqn:L1; cbn.
      * exfalso. exact (gt_lt_exclusive _ _ G1 L1).
      * intros [= <-]. now left.
  - destruct (Float.lt c sm) eqn:L1; cbn; [|intros [= <-]; now left].
    destruct (row_get "MACD" latest) as [[m|]|e3]; try discriminate;
    destruct (row_get "Signal" latest) as [[g|]|e4]; try discriminate.
    cbn. destruct (Float.lt m g) eqn:L2; cbn; [|intros [= <-]; now left].
    destruct (row_get "RSI" latest) as [[x|]|e5]; try discriminate.
    cbn. destruct (Float.lt x (Fin 50)) eqn:L3; cbn;
      [|intros [= <-]; now left].
    intros [= <-]. right. exists (mkFeatureRow c sm m g x).
    cbn. split; [tauto|]. right. tauto.
Qed.

Lemma evaluate_earns (df : DataFrame) (s : string) :
  outcome (fst (evaluate_trading_signals df)) = Ok s ->
  s = "HOLD" \/
  exists latest r,
    latest_row_of df latest /\ reads latest r /\
    ((s = "BUY" /\ buy_condition r) \/ (s = "SELL" /\ sell_condition r)).
Proof.
  unfold evaluate_trading_signals, latest_row_of.
  destruct (first_of_all (columns df)) as [names|e] eqn:E;
    [|intros [= <-]; now left].
  cbn [fst]. rewrite outcome_try_print.
  destruct (forallb _ required_columns); cbn [negb];
    [|intros [= <-]; now left].
  destruct (empty _); [intros [= <-]; now left|].
  destruct (iloc_last _) as [latest|e] eqn:El; [|intros [= <-]; now left].
  rewrite bind_lift_ok.
  destruct (decide_latest latest) as [t [s'|e]] eqn:Ed;
    [|intros [= <-]; now left].
  cbn. intros [= <-].
  destruct (decide_latest_earns latest s') as [H|(r & Hr & H)].
  - now rewrite Ed.
  - now left.
  - right. exists latest, r. split; [|tauto]. now exists names.
Qed.

(** X8.  For every table, whatever its labels and values, the evaluator
    returns BUY, SELL or HOLD and never raises.  It returns BUY (SELL)
    only if, after relabelling and dropping incomplete rows, the last row
    holds a single value for each of the five fields and those values
    meet the BUY (SELL) condition. *)
Theorem signals_are_earned (df : DataFrame) :
  exists s,
    outcome (fst (evaluate_trading_signals df)) = Ok s /\
    (s = "BUY" \/ s = "SELL" \/ s = "HOLD") /\
    (s = "BUY" ->
     exists latest r,
       latest_row_of df latest /\ reads latest r /\ buy_condition r) /\
    (s = "SELL" ->
     exists latest r,
       latest_row_of df latest /\ reads latest r /\ sell_condition r).
Proof.
  destruct (evaluate_trading_signals_total df) as (t & s & df' & E).
  exists s. assert (Ho : outcome (fst (evaluate_trading_signals df)) = Ok s)
    by now rewrite E.
  split; [assumption|].
  destruct (evaluate_earns df s Ho)
    as [->|(latest & r & Hl & Hr & [[-> Hc]|[-> Hc]])].
  - split; [tauto|]. split; discriminate.
  - split; [tauto|]. split; [|discriminate]. intros _. now exists latest, r.
  - split; [tauto|]. split; [discriminate|]. intros _. now exists latest, r.
Qed.

(** X9.  The evaluator relabels the table it is given: whatever it
    answered the first time, applied again to the table it handed back
    it answers HOLD. *)
Theorem reevaluation_holds (df : DataFrame) :
  outcome
    (fst (evaluate_trading_signals (snd (evaluate_trading_signals df)))) =
  Ok "HOLD".
Proof.
  unfold evaluate_trading_signals at 2.
  destruct (first_of_all (columns df)) as [names|e] eqn:E.
  - cbn [snd]. apply plain_labels_hold.
    unfold columns, set_columns. cbn [cols].
    generalize (map snd (cols df)). clear E.
    induction names as [|s names IH]; intros [|v vs]; simpl; auto.
  - cbn [snd]. unfold evaluate_trading_signals. now rewrite E.
Qed.

(** ** Downloads with plain column names *)

Lemma plain_table_names sqrt sym dl :
  multi_level_index dl = false ->
  forallb is_name (columns (indicator_table sqrt sym dl)) = true.
Proof. intros H. unfold indicator_table. now rewrite H. Qed.

(** X10.  When the download comes with plain column names, no pass over
    that symbol ever hands an order to the broker, whatever the prices:
    the pass is skipped, rejected by the filter, or reports HOLD. *)
Theorem plain_columns_never_trade sqrt yf ib_positions ib sym dl :
  yf sym = Ok dl ->
  multi_level_index dl = false ->
  orders_of (pass sqrt yf ib_positions ib sym) = [] /\
  (signals_of (pass sqrt yf ib_positions ib sym) = [] \/
   signals_of (pass sqrt yf ib_positions ib sym) = [(sym, "HOLD")]).
Proof.
  intros Hyf Hflat. rewrite pass_orders_eq, pass_signals_eq.
  destruct (Nat.lt_ge_cases (List.length (bars dl)) 26) as [Hlt|Hge].
  - rewrite (calculate_indicators_short sqrt yf sym dl Hyf Hlt). cbn. auto.
  - rewrite (calculate_indicators_long sqrt yf sym dl Hyf Hge).
    cbn [outcome snd].
    destruct (len _ <? 10); [auto|].
    destruct (outcome (fst (filter_stocks _ _ _))) as [[|]|e]; auto.
    rewrite (plain_labels_hold _ (plain_table_names sqrt sym dl Hflat)).
    cbn. auto.
Qed.

(** ** The filter and its thresholds *)

Lemma filter_stocks_liquid df mv mvol :
  outcome (fst (filter_stocks df mv mvol)) = Ok (liquid df mv mvol).
Proof.
  unfold filter_stocks, liquid, and_then, truth_isna, truth_gt.
  destruct (iloc_last_of "AvgVolume" df) as [[a|]|ea];
    destruct (iloc_last_of "Volatility" df) as [[v|]|ev];
    cbn; try reflexivity.
  - unfold Float.gt.
    destruct a as [p| | |]; cbn; try reflexivity;
      destruct v as [q| | |]; cbn; try reflexivity;
      repeat match goal with
             | |- context [Float.Qltb ?a ?b] => destruct (Float.Qltb a b); cbn
             end; reflexivity.
  - destruct a; reflexivity.
Qed.

Lemma gt_lower_bound (x : fval) (hi lo : Q) :
  (lo <= hi)%Q -> (x >? Fin hi)%F = true -> (x >? Fin lo)%F = true.
Proof.
  intros Hle. unfold Float.gt. destruct x as [q| | |]; try discriminate;
    try reflexivity.
  rewrite !Qltb_true. intros H. eapply Qle_lt_trans; eassumption.
Qed.

(** X11.  Lowering a threshold never turns a pass into a reject: a table
    that passes [filter_stocks] with some minimum volume and minimum
    volatility passes with any smaller ones. *)
Theorem filter_stocks_monotone df (mv mvol mv' mvol' : Q) :
  (mv' <= mv)%Q -> (mvol' <= mvol)%Q ->
  outcome (fst (filter_stocks df mv mvol)) = Ok true ->
  outcome (fst (filter_stocks df mv' mvol')) = Ok true.
Proof.
  intros H1 H2. rewrite !filter_stocks_liquid. unfold liquid.
  destruct (iloc_last_of "AvgVolume" df) as [[a|]|ea]; try discriminate.
  destruct (iloc_last_of "Volatility" df) as [[v|]|ev]; try discriminate.
  intros [= H]. apply andb_true_iff in H as [Ha Hv].
  now rewrite (gt_lower_bound a mv mv' H1 Ha),
    (gt_lower_bound v mvol mvol' H2 Hv).
Qed.

(** ** Rolling windows that are not yet full *)

Lemma nth_map_seq {A : Type} (f : nat -> A) (d : A) (n a i : nat) :
  i < n -> nth i (map f (seq a n)) d = f (a + i).
Proof.
  revert a i. induction n as [|n IH]; intros a i Hi; [lia|].
  destruct i as [|i]; cbn [seq map nth].
  - now rewrite Nat.add_0_r.
  - rewrite IH by lia. f_equal. lia.
Qed.

Lemma nth_rolling_mean (w : nat) (s : Series) (i : nat) :
  i < List.length s ->
  nth i (rolling_mean w s) NaN = mean_of w (window w i s).
Proof. intros Hi. unfold rolling_mean. now rewrite nth_map_seq. Qed.

Lemma nth_rolling_std (sqrt : Q -> Q) (w : nat) (s : Series) (i : nat) :
  i < List.length s ->
  nth i (rolling_std sqrt w s) NaN = std_of sqrt w (window w i s).
Proof. intros Hi. unfold rolling_std. now rewrite nth_map_seq. Qed.

Lemma observations_length (l : Series) :
  List.length (observations l) <= List.length l.
Proof.
  induction l as [|x l IH]; [reflexivity|].
  destruct x; cbn [observations List.length]; lia.
Qed.

Lemma window_length (w i : nat) (s : Series) :
  List.length (window w i s) <= S i.
Proof.
  unfold window. rewrite length_skipn, length_firstn. lia.
Qed.

Lemma mean_of_few (w : nat) (win : Series) :
  List.length (observations win) < w -> mean_of w win = NaN.
Proof.
  intros H. unfold mean_of.
  destruct (Nat.leb_spec w (List.length (observations win))); [lia|].
  reflexivity.
Qed.

Lemma std_of_few (sqrt : Q -> Q) (w : nat) (win : Series) :
  List.length (observations win) < w -> std_of sqrt w win = NaN.
Proof.
  intros H. unfold std_of.
  destruct (Nat.leb_spec w (List.length (observations win))); [lia|].
  reflexivity.
Qed.

Lemma rolling_mean_warm_up (w : nat) (s : Series) (i : nat) :
  S i < w -> nth i (rolling_mean w s) NaN = NaN.
Proof.
  intros Hw.
  destruct (Nat.lt_ge_cases i (List.length s)) as [Hi|Hi].
  - rewrite nth_rolling_mean by assumption. apply mean_of_few.
    pose proof (observations_length (window w i s)).
    pose proof (window_length w i s). lia.
  - apply nth_overflow. now rewrite length_rolling_mean.
Qed.

Lemma pct_change_head (x : fval) (s : Series) :
  exists t, pct_change (x :: s) = NaN :: t.
Proof.
  unfold pct_change, ffill. cbn [ffill_from shift1 zip_with].
  eexists. f_equal. now destruct (if Float.isna x then NaN else x).
Qed.

Lemma rolling_std_warm_up (sqrt : Q -> Q) (w : nat) (s : Series) (i : nat) :
  i < w -> nth i (rolling_std sqrt w (pct_change s)) NaN = NaN.
Proof.
  intros Hw.
  destruct (Nat.lt_ge_cases i (List.length (pct_change s))) as [Hi|Hi].
  - rewrite nth_rolling_std by assumption. apply std_of_few.
    destruct s as [|x s]; [cbn in Hi; lia|].
    destruct (pct_change_head x s) as (t & ->).
    unfold window. replace (S i - w) with 0 by lia.
    cbn [skipn firstn observations].
    pose proof (observations_length (firstn i t)).
    pose proof (firstn_le_length i t). lia.
  - apply nth_overflow. now rewrite length_rolling_std.
Qed.

Lemma rsi_warm_up (close : Series) (i : nat) :
  i < 13 -> nth i (rsi_of close) NaN = NaN.
Proof.
  intros Hi. unfold rsi_of.
  destruct (Nat.lt_ge_cases i (List.length (avg_gain_of close))) as [Hg|Hg];
    [destruct (Nat.lt_ge_cases i (List.length (avg_loss_of close)))
       as [Hl|Hl]|].
  - rewrite nth_zip_with by assumption.
    unfold avg_gain_of. rewrite rolling_mean_warm_up by lia. reflexivity.
  - apply nth_overflow. rewrite length_zip_with. lia.
  - apply nth_overflow. rewrite length_zip_with. lia.
Qed.

Lemma nth_fillna_missing (v : fval) (s : Series) (i : nat) :
  i < List.length s -> nth i s NaN = NaN -> nth i (fillna v s) NaN = v.
Proof. intros Hi H. rewrite nth_fillna by assumption. now rewrite H. Qed.

(** X12.  In every table the engine returns the first rows are warm-up
    rows: SMA is undefined on rows 0 to 18, RSI is the default 50 on rows
    0 to 12, Volatility is the default 0 on rows 0 to 9 and AvgVolume is
    the default 0 on rows 0 to 8, whatever the prices and volumes. *)
Theorem warm_up_rows sqrt yf sym dl (t : list event) (df : DataFrame) :
  yf sym = Ok dl ->
  calculate_indicators sqrt yf sym = (t, Ok (Some df)) ->
  (forall i, i < 19 -> nth i (field "SMA" df) NaN = NaN) /\
  (forall i, i < 13 -> nth i (field "RSI" df) NaN = Fin 50) /\
  (forall i, i < 10 -> nth i (field "Volatility" df) NaN = Fin 0) /\
  (forall i, i < 9 -> nth i (field "AvgVolume" df) NaN = Fin 0).
Proof.
  intros Hyf H.
  destruct (calculate_indicators_some sqrt yf sym dl Hyf t df H)
    as (Hlen & _ & ->).
  destruct (table_fields sqrt sym dl) as (-> & _ & _ & -> & -> & ->).
  assert (Hc : List.length (closes dl) = List.length (bars dl))
    by apply length_map.
  assert (Hv : List.length (volumes dl) = List.length (bars dl))
    by apply length_map.
  repeat split; intros i Hi.
  - apply ffill_from_missing.
    + unfold raw_sma. rewrite length_rolling_mean. lia.
    + intros k Hk. unfold raw_sma.
      rewrite Nat.min_l by lia. now rewrite rolling_mean_warm_up by lia.
  - apply nth_fillna_missing.
    + unfold raw_rsi. rewrite length_rsi_of. lia.
    + apply rsi_warm_up. lia.
  - apply nth_fillna_missing.
    + unfold raw_volatility.
      rewrite length_rolling_std, length_pct_change. lia.
    + now apply rolling_std_warm_up.
  - apply nth_fillna_missing.
    + unfold raw_avg_volume. rewrite length_rolling_mean. lia.
    + apply rolling_mean_warm_up. lia.
Qed.

(** X13.  Every table the engine returns has at least 26 rows and the
    thirteen columns Close, High, Low, Open, Volume, SMA, EMA12, EMA26,
    MACD, Signal, RSI, Volatility, AvgVolume, in that order; so the
    ten-row floor of the scan and the missing-columns exits are never
    taken on it. *)
Theorem returned_table_shape sqrt yf sym (t : list event) (df : DataFrame) :
  calculate_indicators sqrt yf sym = (t, Ok (Some df)) ->
  26 <= len df /\
  (len df <? 10) = false /\
  map level0 (columns df) =
    ["Close"; "High"; "Low"; "Open"; "Volume"; "SMA"; "EMA12"; "EMA26";
     "MACD"; "Signal"; "RSI"; "Volatility"; "AvgVolume"] /\
  forallb (fun col => in_columns col df) required_columns = true.
Proof.
  intros H. destruct (yf sym) as [dl|e] eqn:Hyf.
  - destruct (calculate_indicators_some sqrt yf sym dl Hyf t df H)
      as (Hlen & _ & ->).
    assert (Hn : len (indicator_table sqrt sym dl) = List.length (bars dl))
      by reflexivity.
    rewrite Hn. split; [assumption|]. split; [apply Nat.ltb_ge; lia|].
    unfold indicator_table. destruct (multi_level_index dl); split; reflexivity.
  - unfold calculate_indicators in H. rewrite Hyf in H. discriminate.
Qed.

(** ** The row the signal is decided on *)










(** ** The exponential average *)

Lemma ewm_step_numbers (alpha w w' x : Q) :
  (w == w')%Q ->
  exists q,
    ewm_step alpha (Fin w, 1%Q) (Fin x) = (Fin q, 1%Q) /\
    (q == (1 - alpha) * w' + alpha * x)%Q.
Proof.
  intros Hw. unfold ewm_step. cbn [Float.isna Float.ne].
  unfold Float.Qeqb. destruct (Qeq_bool w x) eqn:E; cbn [negb].
  - apply Qeq_bool_iff in E. exists w. split; [reflexivity|].
    rewrite <- Hw, <- E. ring.
  - assert (Hone : (1 * (1 - alpha) + alpha == 1)%Q) by ring.
    assert (E0 : Qeq_bool (1 * (1 - alpha) + alpha) 0 = false).
    { destruct (Qeq_bool _ 0) eqn:E0; [|reflexivity].
      apply Qeq_bool_iff in E0. rewrite Hone in E0. discriminate. }
    unfold Float.mul, Float.add, Float.div, Float.fin, Float.Qeqb.
    rewrite E0. eexists. split; [reflexivity|].
    rewrite !Qred_correct, Hone, <- Hw. field.
Qed.

Lemma ewm_scan_numbers (alpha : Q) (xs : list Q) :
  forall w w',
    (w == w')%Q ->
    Forall2 same_value (ewm_scan alpha (Fin w, 1%Q) (map Fin xs))
      (map Fin (ema_from alpha w' xs)).
Proof.
  induction xs as [|x xs IH]; intros w w' Hw; cbn [map ewm_scan ema_from].
  - constructor.
  - destruct (ewm_step_numbers alpha w w' x Hw) as (q & -> & Hq).
    cbn [fst]. constructor; [exact Hq|]. now apply IH.
Qed.

(** X15.  On a column of numbers the exponential average of span [n]
    follows the plain recursion: it starts at the first value, and each
    later value is (1 - alpha) times the previous average plus alpha times
    the new value, with alpha = 2 / (n + 1). *)
Theorem ewm_mean_is_the_recursion (span : nat) (xs : list Q) :
  Forall2 same_value
    (ewm_mean span (map Fin xs))
    (map Fin (ema_recursion (2 / (Qnat span + 1)) xs)).
Proof.
  destruct xs as [|x xs]; cbn [map ewm_mean ema_recursion].
  - constructor.
  - constructor; [cbn; reflexivity|]. now apply ewm_scan_numbers.
Qed.

(** ** The RSI formula *)

(** X16.  With a non-negative average gain g and a positive average loss
    l the RSI is the number 100 g / (g + l); it is above 50 exactly when
    the average gain exceeds the average loss and below 50 exactly when
    the average loss exceeds the average gain. *)
Theorem rsi_closed_form (g l : Q) :
  (0 <= g)%Q -> (0 < l)%Q ->
  exists q,
    rsi_value (Fin g) (Fin l) = Fin q /\
    (q == 100 * g / (g + l))%Q /\
    ((Fin q >? Fin 50)%F = true <-> (l < g)%Q) /\
    ((Fin q <? Fin 50)%F = true <-> (g < l)%Q).
Proof.
  intros Hg Hl. unfold rsi_value, Float.div, Float.Qeqb.
  destruct (Qeq_bool l 0) eqn:El; [apply Qeq_bool_iff in El; lra|].
  cbn [Float.add Float.sub Float.neg Float.fin]. unfold Float.fin.
  set (x := Qred (1 + Qred (g / l))).
  assert (Hr : (0 <= g / l)%Q) by (apply Qle_shift_div_l; lra).
  assert (Hx : (x == 1 + g / l)%Q) by (unfold x; now rewrite !Qred_correct).
  destruct (Qeq_bool x 0) eqn:Ex; [apply Qeq_bool_iff in Ex; lra|].
  cbn [Float.add Float.neg]. unfold Float.fin.
  eexists. split; [reflexivity|].
  assert (Hq : (Qred (100 + Qred (- Qred (100 / x))) == 100 * g / (g + l))%Q).
  { rewrite !Qred_correct, Hx. field. split; lra. }
  split; [exact Hq|].
  unfold Float.lt, Float.gt. rewrite !Qltb_true, Hq.
  assert (Hgl : (0 < g + l)%Q) by lra.
  split; split; intros H.
  - destruct (Qlt_le_dec l g) as [|Hle]; [assumption|exfalso].
    assert (100 * g / (g + l) <= 50)%Q by (apply Qle_shift_div_r; lra).
    lra.
  - apply Qlt_shift_div_l; lra.
  - destruct (Qlt_le_dec g l) as [|Hle]; [assumption|exfalso].
    assert (50 <= 100 * g / (g + l))%Q by (apply Qle_shift_div_l; lra).
    lra.
  - apply Qlt_shift_div_r; lra.
Qed.

(** ** The main loop *)

Lemma main_turn_ok sqrt (w : World) :
  turn_fails w = false -> exists t, main_turn sqrt w = (t, Ok tt).
Proof.
  unfold turn_fails, main_turn.
  destruct (is_market_open (now w)); cbn [andb]; [|eauto].
  destruct (sp500 w) as [syms|e]; [|discriminate]. intros _.
  rewrite monitor_and_trade_ok. eauto.
Qed.

Lemma main_turn_fails sqrt (w : World) :
  turn_fails w = true ->
  exists e, sp500 w = Raise e /\ main_turn sqrt w = ([], Raise e).
Proof.
  unfold turn_fails, main_turn.
  destruct (is_market_open (now w)); cbn [andb]; [|discriminate].
  destruct (sp500 w) as [syms|e]; [discriminate|]. intros _.
  exists e. split; reflexivity.
Qed.

Lemma main_loop_runs sqrt world (n : nat) :
  forall k,
    (forall i, i < n -> turn_fails (world (k + i)) = false) ->
    exists t, main_loop sqrt world k n = (t, Ok tt).
Proof.
  induction n as [|n IH]; intros k H; cbn [main_loop]; [eauto|].
  destruct (main_turn_ok sqrt (world k)) as (t & ->).
  { specialize (H 0). rewrite Nat.add_0_r in H. apply H. lia. }
  destruct (IH (S k)) as (t' & ->); [|eauto].
  intros i Hi. replace (S k + i) with (k + S i) by lia. apply H. lia.
Qed.

(** X17.  While the market is closed at every reading of the clock, the
    main loop prints its closed-market line and pauses for an hour, turn
    after turn: it starts no scan and hands no order to the broker. *)
Theorem closed_market_idles sqrt world (n k : nat) :
  (forall i, i < n -> is_market_open (now (world (k + i))) = false) ->
  main_loop sqrt world k n =
    (List.concat (repeat [Printed_market_closed; Slept 3600] n), Ok tt) /\
  main_orders (fst (main_loop sqrt world k n)) = [].
Proof.
  revert k. induction n as [|n IH]; intros k H.
  - split; reflexivity.
  - assert (H0 : is_market_open (now (world k)) = false).
    { specialize (H 0). rewrite Nat.add_0_r in H. apply H. lia. }
    destruct (IH (S k)) as (E & Ho).
    { intros i Hi. replace (S k + i) with (k + S i) by lia. apply H. lia. }
    cbn [main_loop]. unfold main_turn. rewrite H0, E.
    cbn [fst] in Ho. rewrite E in Ho. split; [reflexivity|exact Ho].
Qed.

(** X18.  The main loop catches nothing: it keeps turning as long as no
    turn finds the market open and the membership list unavailable, and
    the first such turn ends it with that exception, before the pause and
    with nothing added to the trace, however many turns were still to
    come. *)
Theorem universe_failure_ends_the_loop sqrt world (j k : nat) :
  (forall i, i < j -> turn_fails (world (k + i)) = false) ->
  turn_fails (world (k + j)) = true ->
  exists t e,
    main_loop sqrt world k j = (t, Ok tt) /\
    sp500 (world (k + j)) = Raise e /\
    forall fuel, main_loop sqrt world k (j + S fuel) = (t, Raise e).
Proof.
  revert k. induction j as [|j IH]; intros k Hok Hfail.
  - rewrite Nat.add_0_r in Hfail.
    destruct (main_turn_fails sqrt (world k) Hfail) as (e & Hs & Ht).
    exists [], e. rewrite Nat.add_0_r. split; [reflexivity|].
    split; [assumption|]. intros fuel. cbn [Nat.add main_loop].
    now rewrite Ht.
  - destruct (main_turn_ok sqrt (world k)) as (t0 & Ht0).
    { specialize (Hok 0). rewrite Nat.add_0_r in Hok. apply Hok. lia. }
    destruct (IH (S k)) as (t & e & E1 & Hs & E2).
    { intros i Hi. replace (S k + i) with (k + S i) by lia.
      apply Hok. lia. }
    { now replace (S k + j) with (k + S j) by lia. }
    exists (t0 ++ t), e. split; [|split].
    + cbn [main_loop]. now rewrite Ht0, E1.
    + now replace (k + S j) with (S k + j) by lia.
    + intros fuel. cbn [Nat.add main_loop]. now rewrite Ht0, E2.
Qed.

(** * The rest of the script on worked inputs *)

Lemma market_closes_at_four :
  is_market_open (mkTime 16 0 0 0) = true <->
  (34200000000 <= micros_of (mkTime 16 0 0 0) <= 57600000000)%Z.
Proof.
  apply is_market_open_hours. unfold valid_time. cbn. lia.
Defined.

Lemma one_microsecond_late :
  is_market_open (mkTime 16 0 0 1) = false /\
  is_market_open (mkTime 9 29 59 999999) = false /\
  is_market_open (mkTime 9 30 0 0) = true.
Proof. repeat split. Qed.

Lemma bad_symbol_then_good :
  monitor_and_trade sqrt_approx flaky (Ok ["BAD"; "AAPL"]) (Ok [])
    accept_order =
  (Printed Monitoring ::
   List.concat (map (pass sqrt_approx flaky (Ok []) accept_order) []) ++
   [Printed (Processing "BAD");
    Printed (Error_calculating_indicators "BAD" (ExternalError "no data"));
    Printed (Skipping_symbol "BAD")] ++
   List.concat (map (pass sqrt_approx flaky (Ok []) accept_order) ["AAPL"]),
   Ok tt).
Proof.
  exact (failed_download_is_isolated sqrt_approx flaky (Ok []) accept_order
           "BAD" (ExternalError "no data") [] ["AAPL"] eq_refl).
Defined.

Lemma thirty_weeks_order_is_earned :
  exists df positions,
    outcome (calculate_indicators sqrt_approx (serve long_download) "AAPL") =
      Ok (Some df) /\
    outcome (fst (filter_stocks df 1000000 (2 # 100))) = Ok true /\
    outcome (fst (evaluate_trading_signals df)) = Ok "BUY" /\
    Ok [] = Ok positions /\
    sound_order "AAPL" (current_position_of positions "AAPL")
      ("AAPL", MarketOrder "BUY" 10) /\
    signals_of (pass sqrt_approx (serve long_download) (Ok []) accept_order
                  "AAPL") = [("AAPL", "BUY")].
Proof.
  apply (order_needs_filter_and_signal sqrt_approx (serve long_download)
           (Ok []) accept_order "AAPL" ("AAPL", MarketOrder "BUY" 10)).
  vm_compute. left. reflexivity.
Defined.

Lemma plain_thirty_weeks_hold :
  orders_of (pass sqrt_approx (serve plain_download) (Ok []) accept_order
               "AAPL") = [] /\
  (signals_of (pass sqrt_approx (serve plain_download) (Ok []) accept_order
                 "AAPL") = [] \/
   signals_of (pass sqrt_approx (serve plain_download) (Ok []) accept_order
                 "AAPL") = [("AAPL", "HOLD")]).
Proof.
  exact (plain_columns_never_trade sqrt_approx (serve plain_download)
           (Ok []) accept_order "AAPL" plain_download eq_refl eq_refl).
Defined.

Lemma liquid_table_passes_lower_thresholds :
  outcome (fst (filter_stocks liquid_table 500000 (1 # 100))) = Ok true.
Proof.
  apply (filter_stocks_monotone liquid_table 1000000 (2 # 100)).
  - unfold Qle. cbn. lia.
  - unfold Qle. cbn. lia.
  - reflexivity.
Defined.

Lemma thirty_weeks_warm_up :
  let df := indicator_table sqrt_approx "AAPL" long_download in
  (forall i, i < 19 -> nth i (field "SMA" df) NaN = NaN) /\
  (forall i, i < 13 -> nth i (field "RSI" df) NaN = Fin 50) /\
  (forall i, i < 10 -> nth i (field "Volatility" df) NaN = Fin 0) /\
  (forall i, i < 9 -> nth i (field "AvgVolume" df) NaN = Fin 0).
Proof.
  exact (warm_up_rows sqrt_approx (serve long_download) "AAPL" long_download
           [] _ eq_refl thirty_weeks_table).
Defined.

Lemma thirty_weeks_shape :
  let df := indicator_table sqrt_approx "AAPL" long_download in
  26 <= len df /\
  (len df <? 10) = false /\
  map level0 (columns df) =
    ["Close"; "High"; "Low"; "Open"; "Volume"; "SMA"; "EMA12"; "EMA26";
     "MACD"; "Signal"; "RSI"; "Volatility"; "AvgVolume"] /\
  forallb (fun col => in_columns col df) required_columns = true.
Proof.
  exact (returned_table_shape sqrt_approx (serve long_download) "AAPL"
           [] _ thirty_weeks_table).
Defined.


Lemma rsi_of_three_to_one :
  exists q,
    rsi_value (Fin 3) (Fin 1) = Fin q /\
    (q == 100 * 3 / (3 + 1))%Q /\
    ((Fin q >? Fin 50)%F = true <-> (1 < 3)%Q) /\
    ((Fin q <? Fin 50)%F = true <-> (3 < 1)%Q).
Proof.
  apply (rsi_closed_form 3 1).
  - unfold Qle. cbn. lia.
  - reflexivity.
Defined.

Lemma three_evenings :
  main_loop sqrt_approx (fun _ => evening) 0 3 =
    (List.concat (repeat [Printed_market_closed; Slept 3600] 3), Ok tt) /\
  main_orders (fst (main_loop sqrt_approx (fun _ => evening) 0 3)) = [].
Proof.
  apply (closed_market_idles sqrt_approx (fun _ => evening) 3 0).
  intros i _. reflexivity.
Defined.

Lemma failure_on_the_third_turn :
  exists t e,
    main_loop sqrt_approx two_evenings_then_failure 0 2 = (t, Ok tt) /\
    sp500 (two_evenings_then_failure (0 + 2)) = Raise e /\
    forall fuel,
      main_loop sqrt_approx two_evenings_then_failure 0 (2 + S fuel) =
      (t, Raise e).
Proof.
  apply (universe_failure_ends_the_loop sqrt_approx
           two_evenings_then_failure 2 0).
  - intros [|[|i]] Hi; try reflexivity. lia.
  - reflexivity.
Defined.
